(** * pyvinecopulib: the build script [setup.py]

    A shallow embedding of the decision logic of [setup.py]: the compiler
    probe [has_flag], the language-standard selection [cpp_flag], the flag
    resolution of [BuildExt.build_extensions] over the class-level tables
    [c_opts] and [l_opts], the extraction of the bundled boost archive
    [extract_boost], and the dependency enumeration [get_files].

    Python objects that the script mutates in place (the option lists held
    by the class-level dictionaries, the file system, the set of open archive
    handles) live in an explicit [world]; functions of the script are
    computations in a state-and-exception monad over that world. *)

From Stdlib Require Import ZArith Lia.
From stdpp Require Import base strings list gmap.

(** ** Exceptions and results *)

Inductive exn :=
  | CompileError
  | RuntimeError (msg : string)
  | AttributeError
  | ValueError
  | IndexError
  | ReadError
  | FileExistsError
  | NotADirectoryError
  | EOFError
  | IsADirectoryError
  | FileNotFoundError
  | KeyError
  | DistutilsPlatformError
  | DistutilsFileError.

#[global] Instance exn_eq_dec : EqDecision exn.
Proof. solve_decision. Defined.

Inductive result (A : Type) :=
  | Ret (a : A)
  | Raise (e : exn).
Arguments Ret {A} a.
Arguments Raise {A} e.

(** ** The file system

    A directory is an ordered listing of named entries (the order in which
    the operating system lists them).  A regular file is either an archive
    that [tarfile.open] accepts, given by its bytes, or any other file. *)

Inductive node :=
  | File
  | Tarball (content : string)
  | Dir (entries : dir)
with dir :=
  | dnil
  | dcons (name : string) (n : node) (rest : dir).

(** ** Events and the world *)

Inductive event :=
  | EvTmpCreate
  | EvTmpDelete
  | EvCompile (flag : string)
  | EvTarOpen (archive : string)
  | EvExtract (archive dest : string)
  | EvTarClose (archive : string).

#[global] Instance event_eq_dec : EqDecision event.
Proof. solve_decision. Defined.

Record world := World {
  fs : node;                    (* the tree below the working directory *)
  heap : list (list string);    (* Python list objects, addressed by index *)
  handles : list string;        (* archives with an open TarFile handle *)
  tmpfiles : nat;               (* live NamedTemporaryFile objects *)
  log : list event;             (* what has been done so far, oldest first *)
}.

Definition set_fs (f : node) (w : world) : world :=
  World f (heap w) (handles w) (tmpfiles w) (log w).
Definition set_heap (h : list (list string)) (w : world) : world :=
  World (fs w) h (handles w) (tmpfiles w) (log w).
Definition set_handles (hs : list string) (w : world) : world :=
  World (fs w) (heap w) hs (tmpfiles w) (log w).
Definition set_tmpfiles (n : nat) (w : world) : world :=
  World (fs w) (heap w) (handles w) n (log w).
Definition emit (e : event) (w : world) : world :=
  World (fs w) (heap w) (handles w) (tmpfiles w) (log w ++ [e]).

(** ** The monad: state passing, with exceptions that keep the state *)

Definition M (A : Type) : Type := world -> result A * world.

Definition ret {A} (a : A) : M A := fun w => (Ret a, w).
Definition raise {A} (e : exn) : M A := fun w => (Raise e, w).
Definition bind {A B} (m : M A) (k : A -> M B) : M B :=
  fun w => match m w with
           | (Ret a, w1) => k a w1
           | (Raise e, w1) => (Raise e, w1)
           end.
Definition modify (f : world -> world) : M unit := fun w => (Ret tt, f w).
Definition gets {A} (f : world -> A) : M A := fun w => (Ret (f w), w).

(** [try: m except h]: the handler decides, per exception, whether it
    catches it. *)
Definition try_except {A} (m : M A) (h : exn -> option (M A)) : M A :=
  fun w => match m w with
           | (Ret a, w1) => (Ret a, w1)
           | (Raise e, w1) =>
               match h e with
               | Some k => k w1
               | None => (Raise e, w1)
               end
           end.

(** [with acquire as _: body]: [release] runs on every exit path. *)
Definition with_resource {A} (acquire release : world -> world) (body : M A) : M A :=
  fun w => let '(r, w1) := body (acquire w) in (r, release w1).

Declare Scope py_scope.
Delimit Scope py_scope with py.
Notation "x <- c1 ;; c2" := (bind c1 (fun x => c2))
  (at level 100, c1 at next level, right associativity) : py_scope.
Notation "c1 ;; c2" := (bind c1 (fun _ => c2))
  (at level 100, right associativity) : py_scope.
Open Scope py_scope.

(** ** The compiler object

    [compiler_so] is the default flag collection of the compiler: a list on
    unix compilers, absent on others, or some object without [remove].
    [compile_outcome flag] is what [compiler.compile] does on the probe file
    with [extra_postargs=[flag]]: [None] when it returns, [Some e] when it
    raises [e]. *)

Inductive so_attr :=
  | SoMissing
  | SoList (l : list string)
  | SoNoRemove.

Record CCompiler := {
  compiler_type : string;
  compiler_so : so_attr;
  compile_outcome : string -> option exn;
}.

Definition compile (compiler : CCompiler) (flagname : string) : M unit :=
  modify (emit (EvCompile flagname)) ;;
  match compile_outcome compiler flagname with
  | None => ret tt
  | Some e => raise e
  end.

(** ** [has_flag] *)

Definition NamedTemporaryFile {A} (body : M A) : M A :=
  with_resource
    (fun w => emit EvTmpCreate (set_tmpfiles (S (tmpfiles w)) w))
    (fun w => emit EvTmpDelete (set_tmpfiles (pred (tmpfiles w)) w))
    body.

Definition has_flag (compiler : CCompiler) (flagname : string) : M bool :=
  NamedTemporaryFile
    (try_except
       (compile compiler flagname ;; ret true)
       (fun e => match e with
                 | CompileError => Some (ret false)
                 | _ => None
                 end)).

(** ** [cpp_flag] *)

Definition std_flags : list string := ["-std=c++14"; "-std=c++11"].

Definition unsupported_compiler : exn :=
  RuntimeError "Unsupported compiler -- at least C++11 support is needed!".

Fixpoint cpp_flag_loop (compiler : CCompiler) (flags : list string) : M string :=
  match flags with
  | [] => raise unsupported_compiler
  | flag :: rest =>
      b <- has_flag compiler flag ;;
      if b : bool then ret flag else cpp_flag_loop compiler rest
  end.

Definition cpp_flag (compiler : CCompiler) : M string :=
  cpp_flag_loop compiler std_flags.

(** The flags that were handed to the compiler, in order. *)
Definition probed (l : list event) : list string :=
  omap (fun e => match e with EvCompile f => Some f | _ => None end) l.

(** ** Python lists on the heap

    A list object is a heap cell; a variable or a dictionary value holding
    the list holds its index.  [opts.append(x)] changes the cell, and so
    what every holder of the index sees. *)

Abbreviation ref := nat.

Definition new_list (l : list string) : M ref :=
  fun w => (Ret (length (heap w)), set_heap (heap w ++ [l]) w).

Definition list_extend (r : ref) (xs : list string) : M unit :=
  modify (fun w => set_heap (alter (fun l => l ++ xs) r (heap w)) w).

Definition list_append (r : ref) (x : string) : M unit :=
  list_extend r [x].

Definition deref (r : ref) (w : world) : list string :=
  default [] (heap w !! r).

(** [l.remove(x)]: drops the first occurrence, [None] is [ValueError]. *)
Fixpoint list_remove (x : string) (l : list string) : option (list string) :=
  match l with
  | [] => None
  | y :: l' =>
      if decide (x = y) then Some l'
      else match list_remove x l' with
           | Some l'' => Some (y :: l'')
           | None => None
           end
  end.

(** ** Strings: quoting, [%s], tuples *)

Definition dquote : string := String (Ascii.ascii_of_nat 34) EmptyString.
Definition backslash : string := String (Ascii.ascii_of_nat 92) EmptyString.

(** [template % arg] for a template with one [%s]. *)
Fixpoint format_s (template arg : string) : string :=
  match template with
  | EmptyString => EmptyString
  | String c rest =>
      if decide (c = Ascii.ascii_of_nat 37) then
        match rest with
        | String c' rest' =>
            if decide (c' = Ascii.ascii_of_nat 115) then arg +:+ rest'
            else String c (format_s rest arg)
        | EmptyString => String c EmptyString
        end
      else String c (format_s rest arg)
  end.

(** Comparison of tuples of integers, as Python orders tuples. *)
Fixpoint tuple_ge (a b : list Z) : bool :=
  match b with
  | [] => true
  | y :: b' =>
      match a with
      | [] => false
      | x :: a' =>
          if (x <? y)%Z then false
          else if (y <? x)%Z then true
          else tuple_ge a' b'
      end
  end.

(** ** The interpreter and the class [BuildExt]

    [version_info] holds the leading integers (major, minor, micro) of
    [sys.version_info]; the comparison with [(3, 9)] looks at no more. *)

Record sys_info := {
  platform : string;
  version_info : list Z;
}.

Record BuildExtClass := {
  c_opts : gmap string ref;
  l_opts : gmap string ref;
}.

Definition darwin_opts : list string :=
  ["-stdlib=libc++"; "-mmacosx-version-min=10.7"].

(** [d[k] += xs]: the list held under [k] is extended in place. *)
Definition dict_iadd (d : gmap string ref) (k : string) (xs : list string) : M unit :=
  match d !! k with
  | Some r => list_extend r xs
  | None => raise KeyError
  end.

(** The body of [class BuildExt], run once when the script is loaded. *)
Definition BuildExt_class (sys : sys_info) : M BuildExtClass :=
  c_msvc <- new_list ["/EHsc"] ;;
  c_unix <- new_list [] ;;
  l_msvc <- new_list [] ;;
  l_unix <- new_list [] ;;
  let c := ({[ "msvc" := c_msvc; "unix" := c_unix ]} : gmap string ref) in
  let l := ({[ "msvc" := l_msvc; "unix" := l_unix ]} : gmap string ref) in
  (if decide (platform sys = "darwin") then
     dict_iadd c "unix" darwin_opts ;;
     dict_iadd l "unix" darwin_opts
   else ret tt) ;;
  ret {| c_opts := c; l_opts := l |}.

Inductive include_dir :=
  | PybindInclude (user : bool)     (* resolved when converted to a string *)
  | IncludePath (p : string).

Record Extension := {
  ext_name : string;
  ext_sources : list string;
  include_dirs : list include_dir;
  depends : list (list string);
  language : string;
  extra_compile_args : ref;
  extra_link_args : ref;
}.

Record BuildExt := {
  compiler : CCompiler;
  extensions : list Extension;
  distribution_version : string;    (* self.distribution.get_version() *)
}.

(** [d.get(k, [])]: the list held by the dictionary, or a new empty one. *)
Definition dict_get (d : gmap string ref) (k : string) : M ref :=
  match d !! k with
  | Some r => ret r
  | None => new_list []
  end.

Definition plain_template : string :=
  "-DVERSION_INFO=" +:+ dquote +:+ "%s" +:+ dquote.
Definition escaped_template : string :=
  "/DVERSION_INFO=" +:+ backslash +:+ dquote +:+ "%s" +:+ backslash +:+ dquote.

(** [compiler.compiler_so.remove(x)] *)
Definition compiler_so_remove (x : string) (c : CCompiler) : result CCompiler :=
  match compiler_so c with
  | SoMissing => Raise AttributeError
  | SoNoRemove => Raise AttributeError
  | SoList l =>
      match list_remove x l with
      | Some l' =>
          Ret {| compiler_type := compiler_type c;
                 compiler_so := SoList l';
                 compile_outcome := compile_outcome c |}
      | None => Raise ValueError
      end
  end.

(** The [try: ... except (AttributeError, ValueError): pass] step. *)
Definition remove_strict_prototypes (c : CCompiler) : result CCompiler :=
  match compiler_so_remove "-Wstrict-prototypes" c with
  | Raise AttributeError => Ret c
  | Raise ValueError => Ret c
  | r => r
  end.

Definition lift {A} (r : result A) : M A := fun w => (r, w).

Definition set_args (opts link_opts : ref) (ext : Extension) : Extension :=
  {| ext_name := ext_name ext;
     ext_sources := ext_sources ext;
     include_dirs := include_dirs ext;
     depends := depends ext;
     language := language ext;
     extra_compile_args := opts;
     extra_link_args := link_opts |}.

(** [BuildExt.build_extensions], up to the call of the generic driver
    [build_ext.build_extensions], which is not part of the script. *)
Definition build_extensions (sys : sys_info) (cls : BuildExtClass)
    (self : BuildExt) : M BuildExt :=
  let ct := compiler_type (compiler self) in
  opts <- dict_get (c_opts cls) ct ;;
  link_opts <- dict_get (l_opts cls) ct ;;
  (if decide (ct = "unix") then
     list_append opts (format_s plain_template (distribution_version self)) ;;
     flag <- cpp_flag (compiler self) ;;
     list_append opts flag ;;
     b <- has_flag (compiler self) "-fvisibility=hidden" ;;
     if b : bool then list_append opts "-fvisibility=hidden" else ret tt
   else if decide (ct = "msvc") then
     if tuple_ge (version_info sys) [3; 9]%Z then
       list_append opts (format_s plain_template (distribution_version self))
     else
       list_append opts (format_s escaped_template (distribution_version self))
   else ret tt) ;;
  compiler' <- lift (remove_strict_prototypes (compiler self)) ;;
  ret {| compiler := compiler';
         extensions := map (set_args opts link_opts) (extensions self);
         distribution_version := distribution_version self |}.

(** The compile and link arguments an extension ends up with. *)
Definition compile_args (w : world) (ext : Extension) : list string :=
  deref (extra_compile_args ext) w.
Definition link_args (w : world) (ext : Extension) : list string :=
  deref (extra_link_args ext) w.

(** ** Paths

    Paths are Python strings, taken relative to the working directory; a
    path is resolved component by component.  The components [.] and [..]
    and symbolic links are not modelled. *)

Definition slash : Ascii.ascii := Ascii.ascii_of_nat 47.
Definition dot : Ascii.ascii := Ascii.ascii_of_nat 46.

(** [s.split('/')] *)
Fixpoint split_sep (s : string) : list string :=
  match s with
  | EmptyString => [EmptyString]
  | String c s' =>
      if decide (c = slash) then EmptyString :: split_sep s'
      else match split_sep s' with
           | x :: xs => String c x :: xs
           | [] => [String c EmptyString]
           end
  end.

Definition components (p : string) : list string :=
  filter (fun s => s ≠ EmptyString) (split_sep p).

Fixpoint last_char (s : string) : option Ascii.ascii :=
  match s with
  | EmptyString => None
  | String c EmptyString => Some c
  | String _ s' => last_char s'
  end.

Definition starts_with (c : Ascii.ascii) (s : string) : bool :=
  match s with
  | String c' _ => bool_decide (c' = c)
  | EmptyString => false
  end.

(** [os.path.join(a, b)] *)
Definition path_join (a b : string) : string :=
  if starts_with slash b then b
  else match last_char a with
       | None => b
       | Some c => if decide (c = slash) then a +:+ b else a +:+ "/" +:+ b
       end.

Fixpoint dir_find (name : string) (d : dir) : option node :=
  match d with
  | dnil => None
  | dcons name' n rest =>
      if decide (name' = name) then Some n else dir_find name rest
  end.

Fixpoint dir_entries (d : dir) : list (string * node) :=
  match d with
  | dnil => []
  | dcons name n rest => (name, n) :: dir_entries rest
  end.

Definition dir_names (d : dir) : list string := (dir_entries d).*1.

Fixpoint lookup_path (comps : list string) (n : node) : option node :=
  match comps with
  | [] => Some n
  | c :: cs =>
      match n with
      | Dir d =>
          match dir_find c d with
          | Some n' => lookup_path cs n'
          | None => None
          end
      | _ => None
      end
  end.

(** What a path names; the empty path names nothing. *)
Definition resolve (p : string) (root : node) : option node :=
  if decide (p = EmptyString) then None else lookup_path (components p) root.

Definition is_dir (n : node) : bool :=
  match n with
  | Dir _ => true
  | _ => false
  end.

(** [os.path.isdir(p)] *)
Definition isdir (p : string) (root : node) : bool :=
  match resolve p root with
  | Some n => is_dir n
  | None => false
  end.

(** ** [glob]

    The script globs two patterns, ['lib/boost*.tar.gz'] and [dirpath/*]:
    a literal directory and a base name pattern [pre*suf].  As in [glob],
    a name that starts with a dot is matched only by a pattern that starts
    with a dot, and the matches come in listing order.  Directory names are
    taken to hold none of the characters [glob] treats as wildcards. *)

Fixpoint is_suffix (suf s : string) : bool :=
  String.eqb suf s ||
  match s with
  | String _ s' => is_suffix suf s'
  | EmptyString => false
  end.

Definition fnmatch_star (pre suf name : string) : bool :=
  String.prefix pre name && is_suffix suf name
  && (String.length pre + String.length suf <=? String.length name)
  && (starts_with dot pre || negb (starts_with dot name)).

Definition glob_star (dirname pre suf : string) (root : node) : list string :=
  match resolve dirname root with
  | Some (Dir d) =>
      map (path_join dirname)
          (filter (fun name => fnmatch_star pre suf name = true) (dir_names d))
  | _ => []
  end.

(** ** [os.walk]

    Top-down: a directory, then the subtree of each of its subdirectories.
    A top that is no directory yields nothing. *)

Definition walk_item : Type := string * list string * list string.

Fixpoint subdir_names (d : dir) : list string :=
  match d with
  | dnil => []
  | dcons name (Dir _) rest => name :: subdir_names rest
  | dcons _ _ rest => subdir_names rest
  end.

Fixpoint nondir_names (d : dir) : list string :=
  match d with
  | dnil => []
  | dcons _ (Dir _) rest => nondir_names rest
  | dcons name _ rest => name :: nondir_names rest
  end.

Fixpoint walk_node (dirpath : string) (n : node) : list walk_item :=
  match n with
  | Dir d => (dirpath, subdir_names d, nondir_names d) :: walk_dir dirpath d
  | _ => []
  end
with walk_dir (dirpath : string) (d : dir) : list walk_item :=
  match d with
  | dnil => []
  | dcons name n rest =>
      walk_node (path_join dirpath name) n ++ walk_dir dirpath rest
  end.

Definition os_walk (top : string) (root : node) : list walk_item :=
  match resolve top root with
  | Some n => walk_node top n
  | None => []
  end.

(** ** [get_include_paths] and [get_files] *)

Definition get_include_paths : list string :=
  let include_dirs :=
    ["boost"; "eigen"; "eigen/unsupported"; "vinecopulib/include";
     "wdm/include"] in
  map (fun path => "lib/" +:+ path) include_dirs.

(** The comprehension
    [[y for x in os.walk(path) for y in glob(join(x[0], '*'))
      if not os.path.isdir(y)]]. *)
Definition files_below (path : string) (root : node) : list string :=
  x ← os_walk path root;
  filter (fun y => isdir y root = false) (glob_star x.1.1 "" "" root).

Fixpoint get_files_loop (root : node) (paths : list string)
    (sources : list (list string)) : list (list string) :=
  match paths with
  | [] => sources
  | path :: rest =>
      let tmp := files_below path root in
      get_files_loop root rest (sources ++ [tmp])
  end.

Definition get_files (paths : list string) (root : node) : list (list string) :=
  get_files_loop root paths [].

(** ** [tarfile]

    Which members an archive holds, where their names lead (a member may be
    named [../x] or [/x], and an archive may hold no member at all) and what
    goes wrong while they are unpacked is the library's business, not the
    script's.  It is a parameter of the model: [unpack content dest root] is
    the tree that [extractall(path=dest)] leaves behind when it is run on an
    archive with the bytes [content] in the tree [root], together with the
    exception it ended with, if any.  The tree is the one below the working
    directory; what a member writes elsewhere is not seen in it. *)

Definition extractall_effect : Type :=
  string -> string -> node -> node * option exn.

Record TarFile := {
  tar_name : string;
  tar_content : string;
}.

(** [tarfile.open(name)] *)
Definition tarfile_open (name : string) : M TarFile :=
  root <- gets fs ;;
  match resolve name root with
  | Some (Tarball content) =>
      modify (fun w => emit (EvTarOpen name) (set_handles (name :: handles w) w)) ;;
      ret {| tar_name := name; tar_content := content |}
  | Some (Dir _) => raise IsADirectoryError
  | Some File => raise ReadError
  | None => raise FileNotFoundError
  end.

(** [tar.extractall(path=dest)]: what has been written when the library
    raises stays written. *)
Definition tar_extractall (unpack : extractall_effect) (tar : TarFile)
    (dest : string) : M unit :=
  modify (emit (EvExtract (tar_name tar) dest)) ;;
  root <- gets fs ;;
  let (root', failure) := unpack (tar_content tar) dest root in
  modify (set_fs root') ;;
  match failure with
  | None => ret tt
  | Some e => raise e
  end.

(** [tar.close()] *)
Definition tar_close (tar : TarFile) : M unit :=
  modify (fun w =>
    emit (EvTarClose (tar_name tar))
         (set_handles (default (handles w) (list_remove (tar_name tar) (handles w))) w)).

(** ** [extract_boost] *)

(** [l[0]] *)
Definition index0 (l : list string) : M string :=
  match l with
  | x :: _ => ret x
  | [] => raise IndexError
  end.

Definition extract_boost (unpack : extractall_effect) : M unit :=
  present <- gets (fun w => isdir "lib/boost" (fs w)) ;;
  if present : bool then ret tt
  else
    matches <- gets (fun w => glob_star "lib" "boost" ".tar.gz" (fs w)) ;;
    boost_archive <- index0 matches ;;
    tar <- tarfile_open boost_archive ;;
    tar_extractall unpack tar "lib/boost" ;;
    tar_close tar.

(** The archives that were unpacked, in order. *)
Definition extractions (l : list event) : list (string * string) :=
  omap (fun e => match e with EvExtract a d => Some (a, d) | _ => None end) l.

(** ** The extension declared by the script

    The expression [Extension('pyvinecopulib', ...)] in the call of [setup];
    the lists for its compile and link arguments are new and empty. *)

Definition declare_extension : M Extension :=
  root <- gets fs ;;
  compile_args0 <- new_list [] ;;
  link_args0 <- new_list [] ;;
  ret {| ext_name := "pyvinecopulib";
         ext_sources := ["src/main.cpp"];
         include_dirs :=
           [PybindInclude false; PybindInclude true]
           ++ map IncludePath get_include_paths;
         depends := get_files get_include_paths root;
         language := "c++";
         extra_compile_args := compile_args0;
         extra_link_args := link_args0 |}.

(** ** Well-formed trees

    In a directory every name is non-empty, holds no [/], and occurs once. *)

Fixpoint has_slash (s : string) : bool :=
  match s with
  | EmptyString => false
  | String c s' => bool_decide (c = slash) || has_slash s'
  end.

Definition good_name (s : string) : bool :=
  negb (bool_decide (s = EmptyString)) && negb (has_slash s).

Fixpoint wf_node (n : node) : bool :=
  match n with
  | Dir d => wf_dir d
  | _ => true
  end
with wf_dir (d : dir) : bool :=
  match d with
  | dnil => true
  | dcons name n rest =>
      good_name name && negb (bool_decide (name ∈ dir_names rest))
      && wf_node n && wf_dir rest
  end.

(** ** Pure views of the probes

    What a probe answers depends on the compiler alone; these functions
    say it without the world, and the lemmas below prove that [has_flag]
    and [cpp_flag] compute them. *)

Definition probe (c : CCompiler) (flagname : string) : result bool :=
  match compile_outcome c flagname with
  | None => Ret true
  | Some CompileError => Ret false
  | Some e => Raise e
  end.

Fixpoint select_std (c : CCompiler) (flags : list string) : result string :=
  match flags with
  | [] => Raise unsupported_compiler
  | flag :: rest =>
      match probe c flag with
      | Ret true => Ret flag
      | Ret false => select_std c rest
      | Raise e => Raise e
      end
  end.

(** The world after one probe: a temporary file came and went, and the
    compiler ran once. *)
Definition after_probe (flagname : string) (w : world) : world :=
  World (fs w) (heap w) (handles w) (tmpfiles w)
        (log w ++ [EvTmpCreate; EvCompile flagname; EvTmpDelete]).

Definition accepts (c : CCompiler) (flagname : string) : Prop :=
  forall w, (has_flag c flagname w).1 = Ret true.
Definition rejects (c : CCompiler) (flagname : string) : Prop :=
  forall w, (has_flag c flagname w).1 = Ret false.

(** ** Sample inputs *)

Definition empty_world : world := World (Dir dnil) [] [] 0 [].

Definition gcc : CCompiler :=
  {| compiler_type := "unix";
     compiler_so := SoList ["-O2"; "-Wstrict-prototypes"; "-fPIC"];
     compile_outcome := fun _ => None |}.

Definition old_gcc : CCompiler :=
  {| compiler_type := "unix";
     compiler_so := SoList ["-O2"; "-fPIC"];
     compile_outcome := fun f =>
       if String.eqb f "-std=c++14" then Some CompileError else None |}.

Definition ancient_cc : CCompiler :=
  {| compiler_type := "unix";
     compiler_so := SoList [];
     compile_outcome := fun _ => Some CompileError |}.

(** A Visual C++ compiler object on a machine without the toolchain:
    [compile] raises while it initialises. *)
Definition msvc_uninstalled : CCompiler :=
  {| compiler_type := "msvc";
     compiler_so := SoMissing;
     compile_outcome := fun _ => Some DistutilsPlatformError |}.

Definition msvc : CCompiler :=
  {| compiler_type := "msvc";
     compiler_so := SoMissing;
     compile_outcome := fun _ => None |}.

(** The world after a run of probes. *)
Definition probes (flags : list string) (w : world) : world :=
  foldl (fun w f => after_probe f w) w flags.

(** ** Views of a run of [build_extensions] *)

(** What [d.get(ct, [])] holds. *)
Definition table_opts (d : gmap string ref) (ct : string) (w : world) : list string :=
  match d !! ct with
  | Some r => deref r w
  | None => []
  end.

(** The tables are as the class body made them: two keys each, four
    different lists, all on the heap. *)
Definition tables_ok (cls : BuildExtClass) (w : world) : Prop :=
  exists cm cu lm lu : ref,
    c_opts cls = {[ "msvc" := cm; "unix" := cu ]}
    /\ l_opts cls = {[ "msvc" := lm; "unix" := lu ]}
    /\ NoDup [cm; cu; lm; lu]
    /\ (cm < length (heap w) /\ cu < length (heap w)
        /\ lm < length (heap w) /\ lu < length (heap w)).

(** The compiler after the removal step. *)
Definition cleaned (c : CCompiler) : CCompiler :=
  match remove_strict_prototypes c with
  | Ret c' => c'
  | Raise _ => c
  end.

(** The object [self] at the end of a run that used the lists [opts] and
    [link_opts]. *)
Definition finished (self : BuildExt) (opts link_opts : ref) : BuildExt :=
  {| compiler := cleaned (compiler self);
     extensions := map (set_args opts link_opts) (extensions self);
     distribution_version := distribution_version self |}.

(** The flags one run appends to [opts] (pure view, lemma
    [build_extensions_run]). *)
Definition appended_opts (sys : sys_info) (self : BuildExt) : result (list string) :=
  let ct := compiler_type (compiler self) in
  let v := distribution_version self in
  if decide (ct = "unix") then
    match select_std (compiler self) std_flags with
    | Ret std =>
        match probe (compiler self) "-fvisibility=hidden" with
        | Ret b =>
            Ret ([format_s plain_template v; std]
                 ++ if b : bool then ["-fvisibility=hidden"] else [])
        | Raise e => Raise e
        end
    | Raise e => Raise e
    end
  else if decide (ct = "msvc") then
    Ret [if tuple_ge (version_info sys) [3; 9]%Z
         then format_s plain_template v
         else format_s escaped_template v]
  else Ret [].

(** ** More sample inputs *)

Definition python38 : sys_info :=
  {| platform := "win32"; version_info := [3; 8; 10]%Z |}.
Definition python39 : sys_info :=
  {| platform := "linux"; version_info := [3; 9; 0]%Z |}.

Definition sample_extension : Extension :=
  {| ext_name := "pyvinecopulib";
     ext_sources := ["src/main.cpp"];
     include_dirs := [];
     depends := [];
     language := "c++";
     extra_compile_args := 0;
     extra_link_args := 0 |}.

Definition build_with (c : CCompiler) : BuildExt :=
  {| compiler := c;
     extensions := [sample_extension];
     distribution_version := "0.5.5" |}.

(** The arguments of the extensions after the class body and [n] runs of
    [build_extensions] in one process. *)
Fixpoint rerun (n : nat) (sys : sys_info) (cls : BuildExtClass)
    (self : BuildExt) : M BuildExt :=
  match n with
  | 0 => ret self
  | S n' => self' <- build_extensions sys cls self ;; rerun n' sys cls self'
  end.

Definition session (n : nat) (sys : sys_info) (self : BuildExt)
    : result (list (list string * list string)) :=
  match (cls <- BuildExt_class sys ;; rerun n sys cls self) empty_world with
  | (Ret self', w) =>
      Ret (map (fun ext => (compile_args w ext, link_args w ext)) (extensions self'))
  | (Raise e, _) => Raise e
  end.

(** The class and the heap right after the class body has run in a new
    process (not on macOS). *)
Definition loaded_class : BuildExtClass :=
  {| c_opts := {[ "msvc" := 0; "unix" := 1 ]};
     l_opts := {[ "msvc" := 2; "unix" := 3 ]} |}.
Definition loaded_world : world :=
  World (Dir dnil) [["/EHsc"]; []; []; []] [] 0 [].

(** A compile argument that defines [VERSION_INFO]. *)
Definition is_version_macro (s : string) : bool :=
  String.prefix "-DVERSION_INFO=" s || String.prefix "/DVERSION_INFO=" s.

(** A source tree as it is checked out: the boost archive is still packed,
    eigen is unpacked and carries a dot-file. *)
Definition boost_tree : dir :=
  dcons "version.hpp" File
    (dcons "math" (Dir (dcons "special_functions.hpp" File dnil)) dnil).

Definition eigen_tree : dir :=
  dcons ".hgeol" File
    (dcons "Eigen" (Dir (dcons "Core" File dnil))
       (dcons "unsupported" (Dir (dcons "README.txt" File dnil)) dnil)).

Definition checkout (archive : node) : node :=
  Dir (dcons "lib"
         (Dir (dcons "boost_1_71_0.tar.gz" archive
                 (dcons "eigen" (Dir eigen_tree) dnil)))
         (dcons "setup.py" File dnil)).

Definition fresh_checkout : world :=
  World (checkout (Tarball "boost 1.71.0")) [] [] 0 [].

(** The same with an archive that breaks while it is unpacked, and with an
    archive that holds no member. *)
Definition damaged_checkout : world :=
  World (checkout (Tarball "boost 1.71.0, cut short")) [] [] 0 [].


(** The entry [name] is replaced where it stands, or added at the end. *)
Fixpoint dir_set (name : string) (n : node) (d : dir) : dir :=
  match d with
  | dnil => dcons name n dnil
  | dcons name' n' rest =>
      if decide (name' = name) then dcons name n rest
      else dcons name' n' (dir_set name n rest)
  end.

(** The tree with the entry [name] of the directory [lib] set to [n]. *)
Definition lib_with (name : string) (n : node) (root : node) : node :=
  match root with
  | Dir top =>
      match dir_find "lib" top with
      | Some (Dir l) => Dir (dir_set "lib" (Dir (dir_set name n l)) top)
      | _ => root
      end
  | _ => root
  end.

(** What [tarfile] does with these three archives when it unpacks them to
    [lib/boost]: the boost archive has one top-level member, the directory
    [boost]; the archive cut short gives its first file and then breaks;
    the one without members writes nothing, not even the destination. *)
Definition sample_unpack : extractall_effect := fun content dest root =>
  if decide (content = "boost 1.71.0" /\ dest = "lib/boost") then
    (lib_with "boost" (Dir (dcons "boost" (Dir boost_tree) dnil)) root, None)
  else if decide (content = "boost 1.71.0, cut short" /\ dest = "lib/boost") then
    (lib_with "boost"
       (Dir (dcons "boost" (Dir (dcons "version.hpp" File dnil)) dnil)) root,
     Some ReadError)
  else (root, None).

(** ** The dependency list, as the specification words it

    [below p n q d]: walking recursively from the node [n], named by the
    path [p], one comes to the directory [d], named by the path [q]. *)

Inductive below : string -> node -> string -> dir -> Prop :=
  | below_here p d : below p (Dir d) p d
  | below_sub p d name n q d' :
      (name, n) ∈ dir_entries d ->
      below (path_join p name) n q d' ->
      below p (Dir d) q d'.

(** [y] is a file system entry, not itself a directory, that the recursive
    walk of the include directory [top] comes by. *)
Definition entry_below (root : node) (top y : string) : Prop :=
  exists n q d name e,
    resolve top root = Some n /\ below top n q d
    /\ (name, e) ∈ dir_entries d /\ is_dir e = false
    /\ y = path_join q name.

(** The same, for entries whose name does not begin with a dot. *)
Definition visible_entry_below (root : node) (top y : string) : Prop :=
  exists n q d name e,
    resolve top root = Some n /\ below top n q d
    /\ (name, e) ∈ dir_entries d /\ is_dir e = false
    /\ starts_with dot name = false
    /\ y = path_join q name.

(** [y] is in one of the lists that [get_files] returned. *)
Definition collected (sources : list (list string)) (y : string) : Prop :=
  y ∈ concat sources.

Scheme node_mut_ind := Induction for node Sort Prop
  with dir_mut_ind := Induction for dir Sort Prop.
Combined Scheme node_dir_ind from node_mut_ind, dir_mut_ind.

(** ** Proof tools *)

(** Decidable facts about concrete inputs, by evaluation. *)
Ltac by_compute := apply (bool_decide_unpack _); vm_compute; exact I.

(** Unfolding of the monad and of the small steps built on it. *)
Ltac run_m :=
  unfold has_flag, NamedTemporaryFile, compile, with_resource, try_except,
    list_append, list_extend, dict_get, new_list, index0, lift,
    bind, ret, raise, modify, gets in *.

(** ** Further views and sample inputs *)

(** How often [x] occurs in [l]. *)
Definition occurrences (x : string) (l : list string) : nat :=
  length (filter (fun y => y = x) l).


(** The first build of a process: the class body, then one run. *)
Definition first_build (sys : sys_info) (self : BuildExt) : M BuildExt :=
  cls <- BuildExt_class sys ;; build_extensions sys cls self.

Definition macos : sys_info :=
  {| platform := "darwin"; version_info := [3; 8; 5]%Z |}.

Definition mingw : CCompiler :=
  {| compiler_type := "mingw32";
     compiler_so := SoList ["-Wstrict-prototypes"; "-O2"; "-Wstrict-prototypes"];
     compile_outcome := fun _ => None |}.


Definition two_archives : world :=
  World (Dir (dcons "lib"
                (Dir (dcons "boost_1_71_0.tar.gz"
                        (Tarball "boost 1.71.0")
                        (dcons "boost_1_60_0.tar.gz"
                           (Tarball "boost 1.60.0") dnil)))
                dnil)) [] [] 0 [].

(** * Properties *)

(** ** The monad *)

Lemma bind_ret_l {A B} (a : A) (k : A -> M B) w : bind (ret a) k w = k a w.
Proof. reflexivity. Qed.

Lemma bind_run {A B} (m : M A) (k : A -> M B) w a w1 :
  m w = (Ret a, w1) -> bind m k w = k a w1.
Proof. intros H. unfold bind. by rewrite H. Qed.

Lemma bind_raise {A B} (m : M A) (k : A -> M B) w e w1 :
  m w = (Raise e, w1) -> bind m k w = (Raise e, w1).
Proof. intros H. unfold bind. by rewrite H. Qed.

(** ** [has_flag] *)

Lemma has_flag_run c f w : has_flag c f w = (probe c f, after_probe f w).
Proof.
  unfold probe, after_probe. run_m. unfold emit, set_tmpfiles. simpl.
  destruct (compile_outcome c f) as [e|]; simpl.
  - destruct e; simpl; by rewrite <- !app_assoc.
  - by rewrite <- !app_assoc.
Qed.

Lemma accepts_iff c f : accepts c f <-> compile_outcome c f = None.
Proof.
  unfold accepts. setoid_rewrite has_flag_run. unfold probe. simpl. split.
  - intros H. specialize (H empty_world).
    destruct (compile_outcome c f) as [[]|]; done.
  - by intros ->.
Qed.

Lemma rejects_iff c f : rejects c f <-> compile_outcome c f = Some CompileError.
Proof.
  unfold rejects. setoid_rewrite has_flag_run. unfold probe. simpl. split.
  - intros H. specialize (H empty_world).
    destruct (compile_outcome c f) as [[]|]; done.
  - by intros ->.
Qed.

(** C4, as the code has it: a probe answers [true] when the compiler
    returns and [false] when it raises [CompileError]; every other
    exception of [compiler.compile] leaves [has_flag] as it is, after the
    temporary file is gone. *)
Theorem has_flag_catches_compile_error_only c f w :
  (has_flag c f w).1 =
    match compile_outcome c f with
    | None => Ret true
    | Some CompileError => Ret false
    | Some e => Raise e
    end
  /\ tmpfiles (has_flag c f w).2 = tmpfiles w.
Proof. by rewrite has_flag_run. Qed.

(** C4 as stated fails: the probe of a compiler whose [compile] raises an
    error other than [CompileError] does not answer [false]; the error
    reaches the caller. *)
Lemma has_flag_other_error_propagates :
  compile_outcome msvc_uninstalled "-std=c++14" = Some DistutilsPlatformError
  /\ (has_flag msvc_uninstalled "-std=c++14" empty_world).1
     = Raise DistutilsPlatformError
  /\ (has_flag msvc_uninstalled "-std=c++14" empty_world).1 <> Ret false.
Proof. by vm_compute. Qed.

(** ** [cpp_flag] *)

Lemma probed_after_probe f w :
  probed (log (after_probe f w)) = probed (log w) ++ [f].
Proof. unfold probed, after_probe. simpl. by rewrite omap_app. Qed.

Lemma probed_probes flags w :
  probed (log (probes flags w)) = probed (log w) ++ flags.
Proof.
  revert w. induction flags as [|f flags IH]; intros w; simpl.
  - by rewrite app_nil_r.
  - unfold probes in *. simpl. rewrite IH, probed_after_probe.
    by rewrite <- app_assoc.
Qed.

(** The loop stops at the first accepted flag and has probed nothing
    beyond it. *)
Lemma cpp_flag_loop_first c pre f post w :
  (forall g, g ∈ pre -> rejects c g) -> accepts c f ->
  cpp_flag_loop c (pre ++ f :: post) w = (Ret f, probes (pre ++ [f]) w).
Proof.
  intros Hpre Hf. revert w.
  induction pre as [|g pre IH]; intros w; simpl.
  - apply accepts_iff in Hf.
    unfold bind. rewrite has_flag_run. unfold probe. by rewrite Hf.
  - assert (Hg : rejects c g) by (apply Hpre; left).
    apply rejects_iff in Hg.
    unfold bind at 1. rewrite has_flag_run. unfold probe. rewrite Hg.
    apply IH. intros g' Hg'. apply Hpre. by right.
Qed.

Lemma cpp_flag_loop_none c flags w :
  (forall g, g ∈ flags -> rejects c g) ->
  cpp_flag_loop c flags w = (Raise unsupported_compiler, probes flags w).
Proof.
  revert w. induction flags as [|g flags IH]; intros w Hall; simpl.
  - reflexivity.
  - assert (Hg : rejects c g) by (apply Hall; left).
    apply rejects_iff in Hg.
    unfold bind at 1. rewrite has_flag_run. unfold probe. rewrite Hg.
    apply IH. intros g' Hg'. apply Hall. by right.
Qed.

(** C1: [cpp_flag] goes through [-std=c++14], [-std=c++11] in this order
    and returns the first flag that [has_flag] accepts, having probed the
    flags before it and no flag after it. *)
Theorem cpp_flag_returns_first_accepted c pre f post w :
  std_flags = pre ++ f :: post ->
  (forall g, g ∈ pre -> rejects c g) ->
  accepts c f ->
  (cpp_flag c w).1 = Ret f
  /\ probed (log (cpp_flag c w).2) = probed (log w) ++ pre ++ [f].
Proof.
  intros Hsplit Hpre Hf. unfold cpp_flag. rewrite Hsplit.
  rewrite (cpp_flag_loop_first c pre f post w Hpre Hf). simpl.
  split; [done|]. apply probed_probes.
Qed.

Lemma cpp_flag_returns_first_accepted_witness :
  (cpp_flag gcc empty_world).1 = Ret "-std=c++14"
  /\ probed (log (cpp_flag gcc empty_world).2) = ["-std=c++14"].
Proof.
  apply (cpp_flag_returns_first_accepted gcc [] "-std=c++14" ["-std=c++11"]).
  - reflexivity.
  - intros g Hg. by apply elem_of_nil in Hg.
  - intros w. reflexivity.
Defined.

(** The two cases the claim spells out. *)
Lemma cpp_flag_cxx14 c w :
  accepts c "-std=c++14" ->
  cpp_flag c w = (Ret "-std=c++14", after_probe "-std=c++14" w).
Proof.
  intros H. apply (cpp_flag_loop_first c [] _ ["-std=c++11"] w); [|done].
  intros g Hg. by apply elem_of_nil in Hg.
Qed.

Lemma cpp_flag_cxx11 c w :
  rejects c "-std=c++14" -> accepts c "-std=c++11" ->
  cpp_flag c w
  = (Ret "-std=c++11", after_probe "-std=c++11" (after_probe "-std=c++14" w)).
Proof.
  intros H14 H11. apply (cpp_flag_loop_first c ["-std=c++14"] _ [] w); [|done].
  intros g Hg. apply list_elem_of_singleton in Hg. by subst.
Qed.

(** C2: when [has_flag] rejects every candidate, [cpp_flag] raises the
    [RuntimeError] and returns no flag. *)
Theorem cpp_flag_unsupported_raises c w :
  (forall g, g ∈ std_flags -> rejects c g) ->
  (cpp_flag c w).1 = Raise unsupported_compiler
  /\ (forall f, (cpp_flag c w).1 <> Ret f).
Proof.
  intros Hall. unfold cpp_flag. rewrite (cpp_flag_loop_none c _ w Hall).
  simpl. split; [done|]. by intros f.
Qed.

Lemma cpp_flag_unsupported_raises_witness :
  (cpp_flag ancient_cc empty_world).1 = Raise unsupported_compiler
  /\ (forall f, (cpp_flag ancient_cc empty_world).1 <> Ret f).
Proof.
  apply (cpp_flag_unsupported_raises ancient_cc empty_world).
  intros g _ w. reflexivity.
Defined.

(** ** The removal of [-Wstrict-prototypes] *)

Lemma list_remove_absent x l : x ∉ l -> list_remove x l = None.
Proof.
  induction l as [|y l IH]; intros Hx; simpl; [done|].
  apply not_elem_of_cons in Hx as [Hne Hx].
  destruct (decide (x = y)); [done|]. by rewrite IH.
Qed.

Lemma list_remove_first x l1 l2 :
  x ∉ l1 -> list_remove x (l1 ++ x :: l2) = Some (l1 ++ l2).
Proof.
  induction l1 as [|y l1 IH]; intros Hx; simpl.
  - by destruct (decide (x = x)).
  - apply not_elem_of_cons in Hx as [Hne Hx].
    destruct (decide (x = y)); [done|]. by rewrite IH.
Qed.

Lemma remove_strict_prototypes_ret c :
  remove_strict_prototypes c = Ret (cleaned c).
Proof.
  unfold cleaned, remove_strict_prototypes, compiler_so_remove.
  destruct (compiler_so c) as [|l|]; try done.
  by destruct (list_remove _ l).
Qed.

Lemma cleaned_type c : compiler_type (cleaned c) = compiler_type c.
Proof.
  unfold cleaned, remove_strict_prototypes, compiler_so_remove.
  destruct (compiler_so c) as [|l|]; try done.
  by destruct (list_remove _ l).
Qed.

Lemma cleaned_outcome c : compile_outcome (cleaned c) = compile_outcome c.
Proof.
  unfold cleaned, remove_strict_prototypes, compiler_so_remove.
  destruct (compiler_so c) as [|l|]; try done.
  by destruct (list_remove _ l).
Qed.

(** C9: the removal step never raises; when the flag is not in the
    compiler's list, or the compiler has no list that supports removal, the
    compiler is left as it was; when the flag is there, its first occurrence
    goes and nothing else changes. *)
Theorem remove_strict_prototypes_never_raises c :
  (exists c', remove_strict_prototypes c = Ret c'
              /\ compiler_type c' = compiler_type c
              /\ compile_outcome c' = compile_outcome c)
  /\ ((forall l, compiler_so c = SoList l -> "-Wstrict-prototypes" ∉ l) ->
      remove_strict_prototypes c = Ret c)
  /\ (forall l1 l2,
        compiler_so c = SoList (l1 ++ "-Wstrict-prototypes" :: l2) ->
        "-Wstrict-prototypes" ∉ l1 ->
        exists c', remove_strict_prototypes c = Ret c'
                   /\ compiler_so c' = SoList (l1 ++ l2)).
Proof.
  split; [|split].
  - exists (cleaned c).
    by rewrite remove_strict_prototypes_ret, cleaned_type, cleaned_outcome.
  - intros Habs. unfold remove_strict_prototypes, compiler_so_remove.
    destruct (compiler_so c) as [|l|] eqn:Hso; try done.
    by rewrite (list_remove_absent _ l (Habs l eq_refl)).
  - intros l1 l2 Hso Hl1. unfold remove_strict_prototypes, compiler_so_remove.
    rewrite Hso, (list_remove_first _ l1 l2 Hl1). eauto.
Qed.

Lemma remove_strict_prototypes_never_raises_witness :
  remove_strict_prototypes msvc = Ret msvc
  /\ remove_strict_prototypes old_gcc = Ret old_gcc
  /\ exists c', remove_strict_prototypes gcc = Ret c'
                /\ compiler_so c' = SoList ["-O2"; "-fPIC"].
Proof.
  split; [|split].
  - apply (remove_strict_prototypes_never_raises msvc). intros l Hl. discriminate Hl.
  - apply (remove_strict_prototypes_never_raises old_gcc).
    intros l Hl. injection Hl as <-. by_compute.
  - apply (proj2 (proj2 (remove_strict_prototypes_never_raises gcc))
             ["-O2"] ["-fPIC"]).
    + reflexivity.
    + by_compute.
Defined.

(** ** [build_extensions] *)

Lemma heap_probes flags w : heap (probes flags w) = heap w.
Proof.
  revert w. induction flags as [|f flags IH]; intros w; [done|].
  unfold probes in *. simpl. by rewrite IH.
Qed.

(** [cpp_flag] computes [select_std], and touches nothing but the log. *)
Lemma cpp_flag_loop_run c flags w :
  exists tested,
    cpp_flag_loop c flags w = (select_std c flags, probes tested w).
Proof.
  revert w. induction flags as [|f flags IH]; intros w; simpl.
  - by exists [].
  - unfold bind. rewrite has_flag_run.
    destruct (probe c f) as [[|]|e].
    + by exists [f].
    + destruct (IH (after_probe f w)) as [tested ->]. by exists (f :: tested).
    + by exists [f].
Qed.

Lemma select_std_elem c flags std : select_std c flags = Ret std -> std ∈ flags.
Proof.
  induction flags as [|f flags IH]; simpl; [done|].
  destruct (probe c f) as [[|]|e]; try done.
  - intros [= ->]. left.
  - intros H. right. by apply IH.
Qed.

Lemma lookup_tables_msvc (a b : ref) :
  ({[ "msvc" := a; "unix" := b ]} : gmap string ref) !! "msvc" = Some a.
Proof. by simplify_map_eq. Qed.

Lemma lookup_tables_unix (a b : ref) :
  ({[ "msvc" := a; "unix" := b ]} : gmap string ref) !! "unix" = Some b.
Proof. by simplify_map_eq. Qed.

Lemma lookup_tables_other (a b : ref) ct :
  ct <> "unix" -> ct <> "msvc" ->
  ({[ "msvc" := a; "unix" := b ]} : gmap string ref) !! ct = None.
Proof. intros. by simplify_map_eq. Qed.

Lemma deref_alter f r h w :
  r < length h ->
  deref r (set_heap (alter f r h) w) = f (default [] (h !! r)).
Proof.
  intros Hr. unfold deref. simpl. rewrite list_lookup_alter_eq.
  by destruct (lookup_lt_is_Some_2 h r Hr) as [l ->].
Qed.

Lemma deref_alter_ne f r r' h w :
  r <> r' -> deref r' (set_heap (alter f r h) w) = default [] (h !! r').
Proof. intros Hr. unfold deref. simpl. by rewrite list_lookup_alter_ne. Qed.

Lemma tables_ok_heap cls w w' :
  length (heap w) <= length (heap w') -> tables_ok cls w -> tables_ok cls w'.
Proof.
  intros Hlen (cm & cu & lm & lu & Hc & Hl & Hnd & Hlt).
  exists cm, cu, lm, lu. repeat split; try done; lia.
Qed.

Lemma table_opts_alter_eq (d : gmap string ref) k r f w :
  d !! k = Some r -> r < length (heap w) ->
  table_opts d k (set_heap (alter f r (heap w)) w) = f (table_opts d k w).
Proof.
  intros Hk Hr. unfold table_opts. rewrite Hk. by rewrite deref_alter.
Qed.

Lemma table_opts_alter_ne (d : gmap string ref) k r f w :
  (forall r', d !! k = Some r' -> r <> r') ->
  table_opts d k (set_heap (alter f r (heap w)) w) = table_opts d k w.
Proof.
  intros Hk. unfold table_opts. destruct (d !! k) as [r'|] eqn:Hd; [|done].
  rewrite deref_alter_ne; [done|]. by apply Hk.
Qed.

Lemma lookup_tables (a b : ref) k r :
  ({[ "msvc" := a; "unix" := b ]} : gmap string ref) !! k = Some r <->
  (k = "msvc" /\ r = a) \/ (k = "unix" /\ r = b).
Proof.
  destruct (decide (k = "msvc")) as [->|Hm].
  - rewrite lookup_tables_msvc. intuition congruence.
  - destruct (decide (k = "unix")) as [->|Hu].
    + rewrite lookup_tables_unix. intuition congruence.
    + rewrite lookup_tables_other by done. intuition congruence.
Qed.

(** What appending [added] to the list that the compile table holds for
    [ct] does to the tables. *)
Lemma append_post cls ct w w' rc rl added :
  tables_ok cls w ->
  c_opts cls !! ct = Some rc -> l_opts cls !! ct = Some rl ->
  heap w' = alter (fun l => l ++ added) rc (heap w) ->
  deref rc w' = table_opts (c_opts cls) ct w ++ added
  /\ deref rl w' = table_opts (l_opts cls) ct w
  /\ (forall k, table_opts (c_opts cls) k w'
                = table_opts (c_opts cls) k w
                  ++ if decide (k = ct) then added else [])
  /\ (forall k, table_opts (l_opts cls) k w' = table_opts (l_opts cls) k w)
  /\ tables_ok cls w'.
Proof.
  intros Hok Hrc Hrl Hheap.
  pose proof Hok as (cm & cu & lm & lu & Hc & Hl & Hnd & Hcm & Hcu & Hlm & Hlu).
  assert (Hlen : length (heap w') = length (heap w))
    by (by rewrite Hheap, length_alter).
  assert (cm <> cu /\ cm <> lm /\ cm <> lu /\ cu <> lm /\ cu <> lu /\ lm <> lu)
    as (? & ? & ? & ? & ? & ?).
  { rewrite !NoDup_cons, !not_elem_of_cons in Hnd. intuition congruence. }
  assert (Hrc_lt : rc < length (heap w)).
  { rewrite Hc in Hrc. apply lookup_tables in Hrc as [[_ ->]|[_ ->]]; done. }
  assert (Hsame : forall r, r <> rc -> heap w' !! r = heap w !! r).
  { intros r Hr. rewrite Hheap. by apply list_lookup_alter_ne. }
  assert (Hat : heap w' !! rc = (fun l => l ++ added) <$> heap w !! rc)
    by (rewrite Hheap; apply list_lookup_alter_eq).
  destruct (lookup_lt_is_Some_2 _ _ Hrc_lt) as [l0 Hl0].
  assert (Hl_same : forall k, table_opts (l_opts cls) k w'
                              = table_opts (l_opts cls) k w).
  { intros k. unfold table_opts, deref.
    destruct (l_opts cls !! k) as [r|] eqn:Hk; [|done].
    rewrite Hsame; [done|].
    rewrite Hc in Hrc. rewrite Hl in Hk.
    apply lookup_tables in Hrc, Hk. intuition congruence. }
  split; [|split; [|split; [|split]]].
  - unfold table_opts, deref. rewrite Hrc, Hat, Hl0. reflexivity.
  - specialize (Hl_same ct). unfold table_opts in Hl_same |- *.
    rewrite Hrl in Hl_same |- *. exact Hl_same.
  - intros k. destruct (decide (k = ct)) as [->|Hne].
    + unfold table_opts, deref. rewrite Hrc, Hat, Hl0. reflexivity.
    + rewrite app_nil_r. unfold table_opts, deref.
      destruct (c_opts cls !! k) as [r|] eqn:Hk; [|done].
      rewrite Hsame; [done|].
      rewrite Hc in Hrc, Hk. apply lookup_tables in Hrc, Hk.
      intuition congruence.
  - done.
  - apply (tables_ok_heap cls w w'); [lia|done].
Qed.

Lemma build_extensions_run sys cls self w :
  tables_ok cls w ->
  match appended_opts sys self with
  | Ret added =>
      exists opts link_opts w',
        build_extensions sys cls self w = (Ret (finished self opts link_opts), w')
        /\ deref opts w'
           = table_opts (c_opts cls) (compiler_type (compiler self)) w ++ added
        /\ deref link_opts w'
           = table_opts (l_opts cls) (compiler_type (compiler self)) w
        /\ (forall k, table_opts (c_opts cls) k w'
                      = table_opts (c_opts cls) k w
                        ++ if decide (k = compiler_type (compiler self))
                           then added else [])
        /\ (forall k, table_opts (l_opts cls) k w' = table_opts (l_opts cls) k w)
        /\ tables_ok cls w'
  | Raise e => (build_extensions sys cls self w).1 = Raise e
  end.
Proof.
  intros Hok. pose proof Hok as (cm & cu & lm & lu & Hc & Hl & Hnd & Hcm & Hcu & Hlm & Hlu).
  unfold appended_opts, build_extensions, dict_get. cbv zeta.
  destruct (decide (compiler_type (compiler self) = "unix")) as [Hu|Hu].
  - rewrite Hu, Hc, Hl, !lookup_tables_unix.
    unfold list_append, list_extend, lift, modify, bind, ret.
    match goal with
    | |- context [cpp_flag ?c ?w1] =>
        destruct (cpp_flag_loop_run c std_flags w1) as [tested Hrun];
        unfold cpp_flag; rewrite Hrun
    end.
    destruct (select_std (compiler self) std_flags) as [std|e]; [|done].
    rewrite has_flag_run.
    destruct (probe (compiler self) "-fvisibility=hidden") as [b|e]; [|done].
    rewrite remove_strict_prototypes_ret.
    exists cu, lu. rewrite <- Hc, <- Hl.
    destruct b; (eexists; split; [reflexivity|]);
      (eapply append_post; [exact Hok|by rewrite Hc, lookup_tables_unix
                            |by rewrite Hl, lookup_tables_unix|]);
      simpl; rewrite heap_probes; simpl;
      rewrite !list_alter_alter_eq; apply list_alter_ext; [|done| |done];
      intros l _; simpl; by rewrite <- !app_assoc.
  - destruct (decide (compiler_type (compiler self) = "msvc")) as [Hm|Hm].
    + rewrite Hm, Hc, Hl, !lookup_tables_msvc.
      unfold list_append, list_extend, lift, modify, bind, ret.
      rewrite remove_strict_prototypes_ret.
      exists cm, lm. rewrite <- Hc, <- Hl.
      destruct (tuple_ge (version_info sys) [3; 9]%Z);
        (eexists; split; [reflexivity|]);
        (eapply append_post; [exact Hok|by rewrite Hc, lookup_tables_msvc
                              |by rewrite Hl, lookup_tables_msvc|]);
        reflexivity.
    + rewrite Hc, Hl, !lookup_tables_other by done.
      unfold new_list, lift, modify, bind, ret. simpl.
      rewrite remove_strict_prototypes_ret.
      eexists _, _, _. split; [reflexivity|].
      rewrite <- Hc, <- Hl.
      assert (Hnone_c : c_opts cls !! compiler_type (compiler self) = None)
        by (by rewrite Hc, lookup_tables_other).
      assert (Hnone_l : l_opts cls !! compiler_type (compiler self) = None)
        by (by rewrite Hl, lookup_tables_other).
      assert (Hkeep : forall (d : gmap string ref) k,
                 (d = c_opts cls \/ d = l_opts cls) ->
                 table_opts d k (set_heap ((heap w ++ [[]]) ++ [[]]) (set_heap (heap w ++ [[]]) w))
                 = table_opts d k w).
      { intros d k Hd. unfold table_opts, deref. simpl.
        destruct (d !! k) as [r|] eqn:Hk; [|done].
        assert (r < length (heap w)) as Hr.
        { destruct Hd as [-> | ->]; rewrite ?Hc, ?Hl in Hk;
            apply lookup_tables in Hk as [[_ ->]|[_ ->]]; done. }
        rewrite <- app_assoc. by rewrite lookup_app_l. }
      assert (Hbase_c : table_opts (c_opts cls) (compiler_type (compiler self)) w = [])
        by (unfold table_opts; by rewrite Hnone_c).
      assert (Hbase_l : table_opts (l_opts cls) (compiler_type (compiler self)) w = [])
        by (unfold table_opts; by rewrite Hnone_l).
      rewrite Hbase_c, Hbase_l.
      split; [|split; [|split; [|split]]].
      * unfold deref. simpl. rewrite <- app_assoc. simpl.
        by rewrite list_lookup_middle.
      * unfold deref. simpl. rewrite list_lookup_middle; [done|].
        rewrite length_app. simpl. lia.
      * intros k. rewrite Hkeep by (by left).
        destruct (decide _); by rewrite app_nil_r.
      * intros k. apply Hkeep. by right.
      * apply (tables_ok_heap cls w); [|done]. simpl. rewrite !length_app. lia.
Qed.

Lemma BuildExt_class_loaded sys :
  platform sys <> "darwin" ->
  BuildExt_class sys empty_world = (Ret loaded_class, loaded_world).
Proof.
  intros H. unfold BuildExt_class, bind, new_list, set_heap, ret. simpl.
  by destruct (decide (platform sys = "darwin")).
Qed.

Lemma tables_ok_loaded : tables_ok loaded_class loaded_world.
Proof.
  exists 0, 1, 2, 3. split; [done|]. split; [done|]. split; [by_compute|].
  simpl. lia.
Qed.

Lemma probe_ext c c' f :
  compile_outcome c = compile_outcome c' -> probe c f = probe c' f.
Proof. unfold probe. by intros ->. Qed.

Lemma select_std_ext c c' flags :
  compile_outcome c = compile_outcome c' ->
  select_std c flags = select_std c' flags.
Proof.
  intros H. induction flags as [|f flags IH]; simpl; [done|].
  by rewrite (probe_ext c c' f H), IH.
Qed.

Lemma appended_opts_finished sys self opts link_opts :
  appended_opts sys (finished self opts link_opts) = appended_opts sys self.
Proof.
  unfold appended_opts, finished. cbn [compiler distribution_version].
  rewrite cleaned_type.
  rewrite (select_std_ext (cleaned (compiler self)) (compiler self))
    by apply cleaned_outcome.
  by rewrite (probe_ext (cleaned (compiler self)) (compiler self))
    by apply cleaned_outcome.
Qed.

Lemma finished_args self opts link_opts w ext :
  ext ∈ extensions (finished self opts link_opts) ->
  compile_args w ext = deref opts w /\ link_args w ext = deref link_opts w.
Proof.
  simpl. intros Hext. apply list_elem_of_fmap in Hext as (ext0 & -> & _). done.
Qed.

Lemma cpp_flag_result c w : (cpp_flag c w).1 = select_std c std_flags.
Proof.
  unfold cpp_flag. by destruct (cpp_flag_loop_run c std_flags w) as [t ->].
Qed.

Lemma format_plain v :
  format_s plain_template v = "-DVERSION_INFO=" +:+ dquote +:+ v +:+ dquote.
Proof. reflexivity. Qed.

Lemma format_escaped v :
  format_s escaped_template v
  = "/DVERSION_INFO=" +:+ backslash +:+ dquote +:+ v +:+ backslash +:+ dquote.
Proof. reflexivity. Qed.

Lemma tuple_ge_3_9 major minor rest :
  tuple_ge (major :: minor :: rest) [3; 9]%Z = true
  <-> (3 < major \/ major = 3 /\ 9 <= minor)%Z.
Proof.
  simpl.
  destruct (Z.ltb_spec major 3), (Z.ltb_spec 3 major),
    (Z.ltb_spec minor 9), (Z.ltb_spec 9 minor); split; intros; try done; try lia.
  by destruct rest.
Qed.

(** A successful run, read off [build_extensions_run]. *)
Lemma build_extensions_ret sys cls self w self' w' :
  tables_ok cls w ->
  build_extensions sys cls self w = (Ret self', w') ->
  exists added opts link_opts,
    appended_opts sys self = Ret added
    /\ self' = finished self opts link_opts
    /\ deref opts w'
       = table_opts (c_opts cls) (compiler_type (compiler self)) w ++ added
    /\ deref link_opts w'
       = table_opts (l_opts cls) (compiler_type (compiler self)) w
    /\ (forall k, table_opts (c_opts cls) k w'
                  = table_opts (c_opts cls) k w
                    ++ if decide (k = compiler_type (compiler self))
                       then added else [])
    /\ (forall k, table_opts (l_opts cls) k w' = table_opts (l_opts cls) k w)
    /\ tables_ok cls w'.
Proof.
  intros Hok Hrun. pose proof (build_extensions_run sys cls self w Hok) as H.
  destruct (appended_opts sys self) as [added|e].
  - destruct H as (opts & link_opts & w1 & Hrun1 & H).
    rewrite Hrun in Hrun1. injection Hrun1 as -> ->.
    by exists added, opts, link_opts.
  - by rewrite Hrun in H.
Qed.

(** C6: on [msvc] the version macro is written with backslash-escaped
    quotes, [/DVERSION_INFO=\"v\"], when the interpreter is older than 3.9,
    and as [-DVERSION_INFO="v"] from 3.9 on; on [unix] it is always
    [-DVERSION_INFO="v"], whatever the interpreter. *)
Theorem version_macro_quoting sys cls self w self' w' :
  tables_ok cls w ->
  build_extensions sys cls self w = (Ret self', w') ->
  let ct := compiler_type (compiler self) in
  let v := distribution_version self in
  let base := table_opts (c_opts cls) ct w in
  let plain := "-DVERSION_INFO=" +:+ dquote +:+ v +:+ dquote in
  let escaped :=
    "/DVERSION_INFO=" +:+ backslash +:+ dquote +:+ v +:+ backslash +:+ dquote in
  (ct = "msvc" ->
   forall major minor rest, version_info sys = major :: minor :: rest ->
     ((major < 3 \/ major = 3 /\ minor < 9)%Z ->
      forall ext, ext ∈ extensions self' -> compile_args w' ext = base ++ [escaped])
     /\ ((3 < major \/ major = 3 /\ 9 <= minor)%Z ->
         forall ext, ext ∈ extensions self' -> compile_args w' ext = base ++ [plain]))
  /\ (ct = "unix" ->
      exists more, forall ext, ext ∈ extensions self' ->
        compile_args w' ext = base ++ plain :: more).
Proof.
  intros Hok Hrun ct v base plain escaped.
  destruct (build_extensions_ret _ _ _ _ _ _ Hok Hrun)
    as (added & opts & link_opts & Hadd & -> & Hopts & _).
  unfold appended_opts in Hadd. rewrite format_plain, format_escaped in Hadd.
  fold ct v in Hadd. split.
  - intros Hct major minor rest Hvi. rewrite Hct in Hadd.
    destruct (decide ("msvc" = "unix")) as [|_]; [done|].
    destruct (decide ("msvc" = "msvc")) as [_|]; [|done].
    rewrite Hvi in Hadd. pose proof (tuple_ge_3_9 major minor rest) as Hge.
    split; intros Hver ext Hext;
      destruct (finished_args _ _ _ w' ext Hext) as [-> _]; rewrite Hopts;
      fold ct base.
    + destruct (tuple_ge (major :: minor :: rest) [3; 9]%Z).
      * destruct Hge as [Hge _]. specialize (Hge eq_refl). lia.
      * by injection Hadd as <-.
    + destruct (tuple_ge (major :: minor :: rest) [3; 9]%Z).
      * by injection Hadd as <-.
      * destruct Hge as [_ Hge]. by specialize (Hge Hver).
  - intros Hct. rewrite Hct in Hadd.
    destruct (decide ("unix" = "unix")) as [_|]; [|done].
    destruct (select_std (compiler self) std_flags) as [std|]; [|done].
    destruct (probe (compiler self) "-fvisibility=hidden") as [b|]; [|done].
    injection Hadd as <-.
    exists (std :: if b then ["-fvisibility=hidden"] else []).
    intros ext Hext. destruct (finished_args _ _ _ w' ext Hext) as [-> _].
    rewrite Hopts. by fold ct base.
Qed.

(** The class body leaves sound tables, on every platform; on macOS the
    two [unix] lists start with [darwin_opts]. *)
Lemma BuildExt_class_ok sys w0 :
  exists cls w,
    BuildExt_class sys w0 = (Ret cls, w)
    /\ tables_ok cls w
    /\ table_opts (c_opts cls) "msvc" w = ["/EHsc"]
    /\ table_opts (l_opts cls) "msvc" w = []
    /\ table_opts (c_opts cls) "unix" w
       = (if decide (platform sys = "darwin") then darwin_opts else [])
    /\ table_opts (l_opts cls) "unix" w
       = (if decide (platform sys = "darwin") then darwin_opts else []).
Proof.
  unfold BuildExt_class, dict_iadd, bind, new_list, ret. simpl.
  rewrite !lookup_tables_unix. rewrite !length_app. simpl.
  set (n := length (heap w0)).
  assert (Hnd : NoDup [n; n + 1; n + 1 + 1; n + 1 + 1 + 1]).
  { rewrite !NoDup_cons, !not_elem_of_cons. repeat split; try lia.
    - apply not_elem_of_nil.
    - apply not_elem_of_nil.
    - apply not_elem_of_nil.
    - apply not_elem_of_nil.
    - apply NoDup_nil_2. }
  assert (Hat : forall (l0 l1 l2 l3 : list string) (h : list (list string)),
            h = heap w0 ++ [l0; l1; l2; l3] ->
            h !! n = Some l0 /\ h !! (n + 1) = Some l1
            /\ h !! (n + 1 + 1) = Some l2 /\ h !! (n + 1 + 1 + 1) = Some l3
            /\ length h = n + 4).
  { intros l0 l1 l2 l3 h ->. rewrite length_app.
    repeat split; try (simpl; lia).
    - rewrite lookup_app_r by lia. by replace (n - length (heap w0)) with 0 by lia.
    - rewrite lookup_app_r by lia.
      by replace (n + 1 - length (heap w0)) with 1 by lia.
    - rewrite lookup_app_r by lia.
      by replace (n + 1 + 1 - length (heap w0)) with 2 by lia.
    - rewrite lookup_app_r by lia.
      by replace (n + 1 + 1 + 1 - length (heap w0)) with 3 by lia. }
  destruct (decide (platform sys = "darwin")) as [Hd|Hd].
  - unfold list_extend, modify. simpl. eexists _, _. split; [reflexivity|].
    rewrite <- !app_assoc. simpl.
    assert (Hheap :
      alter (fun l => l ++ darwin_opts) (n + 1 + 1 + 1)
        (alter (fun l => l ++ darwin_opts) (n + 1)
           (heap w0 ++ [["/EHsc"]; []; []; []]))
      = heap w0 ++ [["/EHsc"]; darwin_opts; []; darwin_opts]).
    { replace (n + 1 + 1 + 1) with (length (heap w0) + 3) by lia.
      replace (n + 1) with (length (heap w0) + 1) by lia.
      by rewrite !alter_app_r. }
    rewrite Hheap.
    destruct (Hat ["/EHsc"] darwin_opts [] darwin_opts _ eq_refl)
      as (H0 & H1 & H2 & H3 & Hlen).
    unfold table_opts, deref. cbn [c_opts l_opts heap set_heap].
    rewrite !lookup_tables_msvc, !lookup_tables_unix, H0, H1, H2, H3.
    repeat split; try done.
    exists n, (n + 1), (n + 1 + 1), (n + 1 + 1 + 1). simpl.
    repeat split; try done; rewrite Hlen; lia.
  - eexists _, _. split; [reflexivity|].
    rewrite <- !app_assoc. simpl.
    destruct (Hat ["/EHsc"] [] [] [] _ eq_refl)
      as (H0 & H1 & H2 & H3 & Hlen).
    unfold table_opts, deref. cbn [c_opts l_opts heap set_heap].
    rewrite !lookup_tables_msvc, !lookup_tables_unix, H0, H1, H2, H3.
    repeat split; try done.
    exists n, (n + 1), (n + 1 + 1), (n + 1 + 1 + 1). simpl.
    repeat split; try done; rewrite Hlen; lia.
Qed.

Lemma version_macro_quoting_witness :
  compile_args
    (build_extensions python38 loaded_class (build_with msvc) loaded_world).2
    (set_args 0 2 sample_extension)
  = ["/EHsc";
     "/DVERSION_INFO=" +:+ backslash +:+ dquote +:+ "0.5.5"
       +:+ backslash +:+ dquote].
Proof.
  pose proof (version_macro_quoting python38 loaded_class (build_with msvc)
                loaded_world (finished (build_with msvc) 0 2)
                (build_extensions python38 loaded_class (build_with msvc)
                   loaded_world).2
                tables_ok_loaded eq_refl) as [H _].
  apply (H eq_refl 3%Z 8%Z [10%Z] eq_refl); [lia|left].
Defined.

(** C7 as stated fails: a build with the [msvc] compiler gets the version
    macro too. *)
Lemma msvc_receives_version_macro :
  compiler_type (compiler (build_with msvc)) = "msvc"
  /\ session 1 python38 (build_with msvc)
     = Ret [(["/EHsc";
              "/DVERSION_INFO=" +:+ backslash +:+ dquote +:+ "0.5.5"
                +:+ backslash +:+ dquote], [])]
  /\ ~ (forall args a,
          session 1 python38 (build_with msvc) = Ret args -> a ∈ args ->
          forallb (fun s => negb (is_version_macro s)) a.1 = true).
Proof.
  split; [done|]. split; [by vm_compute|].
  intros H. specialize (H _ _ eq_refl (list_elem_of_here _ _)). by vm_compute in H.
Qed.

(** C7, as the code has it: [unix] gets the version macro, the standard
    flag that [cpp_flag] selected and, when the probe accepts it,
    [-fvisibility=hidden]; [msvc] gets the version macro, in one of its two
    forms, and nothing else; any other compiler type gets nothing. *)
Theorem flags_by_compiler_type sys cls self w self' w' :
  tables_ok cls w ->
  build_extensions sys cls self w = (Ret self', w') ->
  let ct := compiler_type (compiler self) in
  let v := distribution_version self in
  let base := table_opts (c_opts cls) ct w in
  let plain := "-DVERSION_INFO=" +:+ dquote +:+ v +:+ dquote in
  let escaped :=
    "/DVERSION_INFO=" +:+ backslash +:+ dquote +:+ v +:+ backslash +:+ dquote in
  exists added,
    (forall ext, ext ∈ extensions self' -> compile_args w' ext = base ++ added)
    /\ (ct = "unix" ->
        exists std,
          (cpp_flag (compiler self) w).1 = Ret std /\ std ∈ std_flags
          /\ ((accepts (compiler self) "-fvisibility=hidden"
               /\ added = [plain; std; "-fvisibility=hidden"])
              \/ (rejects (compiler self) "-fvisibility=hidden"
                  /\ added = [plain; std])))
    /\ (ct = "msvc" -> added = [plain] \/ added = [escaped])
    /\ (ct <> "unix" -> ct <> "msvc" -> added = []).
Proof.
  intros Hok Hrun ct v base plain escaped.
  destruct (build_extensions_ret _ _ _ _ _ _ Hok Hrun)
    as (added & opts & link_opts & Hadd & -> & Hopts & _).
  exists added. split.
  { intros ext Hext. destruct (finished_args _ _ _ w' ext Hext) as [-> _].
    by rewrite Hopts. }
  unfold appended_opts in Hadd. rewrite format_plain, format_escaped in Hadd.
  fold ct v plain escaped in Hadd.
  destruct (decide (ct = "unix")) as [Hu|Hu];
    [|destruct (decide (ct = "msvc")) as [Hm|Hm]].
  - split; [|split; [|done]]; [|intros Hm; by rewrite Hu in Hm].
    intros _.
    destruct (select_std (compiler self) std_flags) as [std|] eqn:Hstd; [|done].
    exists std. split; [by rewrite cpp_flag_result|].
    split; [by eapply select_std_elem|].
    unfold probe in Hadd.
    destruct (compile_outcome (compiler self) "-fvisibility=hidden")
      as [e|] eqn:Hout.
    + destruct e; try done. injection Hadd as <-. right.
      split; [by apply rejects_iff|done].
    + injection Hadd as <-. left. split; [by apply accepts_iff|done].
  - split; [done|]. split; [|done]. intros _.
    destruct (tuple_ge (version_info sys) [3; 9]%Z); injection Hadd as <-;
      [by left|by right].
  - split; [done|]. split; [done|]. intros _ _. by injection Hadd as <-.
Qed.

Lemma flags_by_compiler_type_witness :
  exists added,
    (forall ext,
        ext ∈ extensions (finished (build_with old_gcc) 1 3) ->
        compile_args
          (build_extensions python39 loaded_class (build_with old_gcc)
             loaded_world).2 ext
        = [] ++ added)
    /\ added = ["-DVERSION_INFO=" +:+ dquote +:+ "0.5.5" +:+ dquote;
                "-std=c++11"; "-fvisibility=hidden"].
Proof.
  destruct (flags_by_compiler_type python39 loaded_class (build_with old_gcc)
              loaded_world (finished (build_with old_gcc) 1 3)
              (build_extensions python39 loaded_class (build_with old_gcc)
                 loaded_world).2
              tables_ok_loaded eq_refl) as (added & Hargs & Hunix & _).
  exists added. split; [exact Hargs|].
  destruct (Hunix eq_refl) as (std & Hstd & _ & [[_ ->]|[Hrej _]]).
  - by injection Hstd as <-.
  - specialize (Hrej empty_world). discriminate Hrej.
Defined.

(** C5 as stated fails: a second run for the same [unix] compiler leaves
    every appended flag twice in the compile arguments. *)
Lemma second_run_duplicates_flags :
  session 1 python39 (build_with gcc)
  = Ret [(["-DVERSION_INFO=" +:+ dquote +:+ "0.5.5" +:+ dquote;
           "-std=c++14"; "-fvisibility=hidden"], [])]
  /\ session 2 python39 (build_with gcc)
     = Ret [(["-DVERSION_INFO=" +:+ dquote +:+ "0.5.5" +:+ dquote;
              "-std=c++14"; "-fvisibility=hidden";
              "-DVERSION_INFO=" +:+ dquote +:+ "0.5.5" +:+ dquote;
              "-std=c++14"; "-fvisibility=hidden"], [])]
  /\ session 2 python39 (build_with gcc) <> session 1 python39 (build_with gcc).
Proof. split; [by vm_compute|]. split; [by vm_compute|]. by vm_compute. Qed.

(** C5, as the code has it: a second run for the same compiler succeeds
    and leaves the link arguments as they were, but it appends to the list
    that the class-level table holds, so its compile arguments are those of
    the first run followed by the appended flags once more; the two runs
    agree exactly when the compiler type is neither [unix] nor [msvc]. *)
Theorem second_run_appends_again sys cls self w self1 w1 :
  tables_ok cls w ->
  build_extensions sys cls self w = (Ret self1, w1) ->
  let ct := compiler_type (compiler self) in
  let base := table_opts (c_opts cls) ct w in
  let link := table_opts (l_opts cls) ct w in
  exists self2 w2 added,
    build_extensions sys cls self1 w1 = (Ret self2, w2)
    /\ (forall ext, ext ∈ extensions self1 ->
          compile_args w1 ext = base ++ added /\ link_args w1 ext = link)
    /\ (forall ext, ext ∈ extensions self2 ->
          compile_args w2 ext = base ++ added ++ added
          /\ link_args w2 ext = link)
    /\ (added = [] <-> ct <> "unix" /\ ct <> "msvc").
Proof.
  intros Hok Hrun ct base link.
  destruct (build_extensions_ret _ _ _ _ _ _ Hok Hrun)
    as (added & opts & link_opts & Hadd & -> & Hopts & Hlink & Hc & Hl & Hok1).
  pose proof (build_extensions_run sys cls (finished self opts link_opts) w1 Hok1)
    as H2.
  rewrite appended_opts_finished, Hadd in H2.
  destruct H2 as (opts2 & link2 & w2 & Hrun2 & Hopts2 & Hlink2 & _).
  cbn [finished compiler] in Hopts2, Hlink2. rewrite cleaned_type in Hopts2, Hlink2.
  fold ct in Hopts, Hlink, Hopts2, Hlink2.
  exists (finished (finished self opts link_opts) opts2 link2), w2, added.
  split; [done|]. split; [|split].
  - intros ext Hext. destruct (finished_args _ _ _ w1 ext Hext) as [-> ->].
    by rewrite Hopts, Hlink.
  - intros ext Hext. destruct (finished_args _ _ _ w2 ext Hext) as [-> ->].
    rewrite Hopts2, Hlink2, Hl. specialize (Hc ct). fold ct in Hc.
    destruct (decide (ct = ct)); [|done]. rewrite Hc. fold base.
    by rewrite <- app_assoc.
  - unfold appended_opts in Hadd. fold ct in Hadd.
    destruct (decide (ct = "unix")) as [Hu|Hu];
      [|destruct (decide (ct = "msvc")) as [Hm|Hm]].
    + destruct (select_std _ _); [|done]. destruct (probe _ _); [|done].
      injection Hadd as <-. split; [done|]. by intros [? _].
    + injection Hadd as <-. split; [done|]. by intros [_ ?].
    + by injection Hadd as <-.
Qed.

Lemma second_run_appends_again_witness :
  exists self2 w2 added,
    build_extensions python39 loaded_class (finished (build_with gcc) 1 3)
      (build_extensions python39 loaded_class (build_with gcc) loaded_world).2
    = (Ret self2, w2)
    /\ (forall ext, ext ∈ extensions (finished (build_with gcc) 1 3) ->
          compile_args
            (build_extensions python39 loaded_class (build_with gcc)
               loaded_world).2 ext
          = [] ++ added
          /\ link_args
               (build_extensions python39 loaded_class (build_with gcc)
                  loaded_world).2 ext
             = [])
    /\ (forall ext, ext ∈ extensions self2 ->
          compile_args w2 ext = [] ++ added ++ added /\ link_args w2 ext = [])
    /\ (added = []
        <-> compiler_type gcc <> "unix" /\ compiler_type gcc <> "msvc").
Proof.
  apply (second_run_appends_again python39 loaded_class (build_with gcc)
           loaded_world (finished (build_with gcc) 1 3)
           (build_extensions python39 loaded_class (build_with gcc)
              loaded_world).2
           tables_ok_loaded eq_refl).
Defined.

(** ** [extract_boost] *)


(** When [lib/boost] is a directory, nothing happens. *)
Lemma extract_boost_present unpack w :
  isdir "lib/boost" (fs w) = true -> extract_boost unpack w = (Ret tt, w).
Proof. intros H. unfold extract_boost, bind, gets. by rewrite H. Qed.

(** [extract_boost], evaluated, when [lib/boost] is no directory. *)
Lemma extract_boost_absent unpack w :
  isdir "lib/boost" (fs w) = false ->
  extract_boost unpack w
  = match glob_star "lib" "boost" ".tar.gz" (fs w) with
    | [] => (Raise IndexError, w)
    | a :: _ =>
        match resolve a (fs w) with
        | Some (Tarball content) =>
            let opened :=
              emit (EvExtract a "lib/boost")
                (emit (EvTarOpen a) (set_handles (a :: handles w) w)) in
            match unpack content "lib/boost" (fs w) with
            | (root', Some e) => (Raise e, set_fs root' opened)
            | (root', None) =>
                (Ret tt,
                 emit (EvTarClose a)
                   (set_handles (handles w) (set_fs root' opened)))
            end
        | Some File => (Raise ReadError, w)
        | Some (Dir _) => (Raise IsADirectoryError, w)
        | None => (Raise FileNotFoundError, w)
        end
    end.
Proof.
  intros Hdir. unfold extract_boost, bind, gets. rewrite Hdir.
  destruct (glob_star "lib" "boost" ".tar.gz" (fs w)) as [|a others]; [done|].
  simpl. unfold tarfile_open, bind, gets, ret, raise, modify.
  destruct (resolve a (fs w)) as [[|content|d]|]; try done.
  unfold tar_extractall, tar_close, bind, gets, ret, raise, modify. simpl.
  destruct (unpack content "lib/boost" (fs w)) as [root' [e|]]; [done|].
  simpl. by destruct (decide (a = a)).
Qed.

(** One call: either the directory is there and nothing happens, or the
    call unpacks at most once. *)
Lemma extract_boost_cases unpack w :
  (isdir "lib/boost" (fs w) = true /\ extract_boost unpack w = (Ret tt, w))
  \/ (isdir "lib/boost" (fs w) = false
      /\ exists evs,
           log (extract_boost unpack w).2 = log w ++ evs
           /\ length (extractions evs) <= 1).
Proof.
  destruct (isdir "lib/boost" (fs w)) eqn:Hdir;
    [left; split; [done|by apply extract_boost_present]|right].
  split; [done|]. rewrite (extract_boost_absent unpack w Hdir).
  assert (Hnone : exists evs,
            log w = log w ++ evs /\ length (extractions evs) <= 1).
  { exists []. split; [by rewrite app_nil_r|simpl; lia]. }
  destruct (glob_star "lib" "boost" ".tar.gz" (fs w)) as [|a others];
    [exact Hnone|].
  destruct (resolve a (fs w)) as [[|content|d]|]; try exact Hnone.
  cbv zeta. destruct (unpack content "lib/boost" (fs w)) as [root' [e|]].
  - exists [EvTarOpen a; EvExtract a "lib/boost"].
    split; [simpl; by rewrite <- app_assoc|simpl; lia].
  - exists [EvTarOpen a; EvExtract a "lib/boost"; EvTarClose a].
    split; [simpl; by rewrite <- !app_assoc|simpl; lia].
Qed.





(** When unpacking raises, [tar.close()] is not reached. *)
Lemma extractall_raise_skips_close unpack tar dest w e w1 :
  tar_extractall unpack tar dest w = (Raise e, w1) ->
  (tar_extractall unpack tar dest ;; tar_close tar) w = (Raise e, w1).
Proof. intros H. unfold bind. by rewrite H. Qed.

(** C8 fails on the code: with an archive that breaks while it is unpacked,
    [extract_boost] leaves with [ReadError], the handle is still open and
    no close has happened. *)
Theorem extract_boost_leaves_handle_open :
  (extract_boost sample_unpack damaged_checkout).1 = Raise ReadError
  /\ handles (extract_boost sample_unpack damaged_checkout).2
     = ["lib/boost_1_71_0.tar.gz"]
  /\ log (extract_boost sample_unpack damaged_checkout).2
     = [EvTarOpen "lib/boost_1_71_0.tar.gz";
        EvExtract "lib/boost_1_71_0.tar.gz" "lib/boost"].
Proof. by vm_compute. Qed.

(** ** Paths *)

Lemma split_sep_cons s : exists x xs, split_sep s = x :: xs.
Proof.
  destruct s as [|c s]; simpl; [by eauto|].
  destruct (decide (c = slash)); [by eauto|].
  destruct (split_sep s); eauto.
Qed.

Lemma split_sep_app a b :
  split_sep (a +:+ String slash b) = split_sep a ++ split_sep b.
Proof.
  induction a as [|c a IH]; simpl.
  - by destruct (decide (slash = slash)).
  - destruct (decide (c = slash)); [by rewrite IH|].
    rewrite IH. by destruct (split_sep_cons a) as (x & xs & ->).
Qed.

Lemma split_sep_plain s : has_slash s = false -> split_sep s = [s].
Proof.
  induction s as [|c s IH]; simpl; [done|].
  intros H. apply orb_false_elim in H as [Hc Hs].
  apply bool_decide_eq_false in Hc.
  destruct (decide (c = slash)); [done|]. by rewrite IH.
Qed.

Lemma components_snoc a name :
  good_name name = true ->
  components (a +:+ String slash name) = components a ++ [name].
Proof.
  unfold good_name, components. intros H.
  apply andb_true_iff in H as [Hne Hs].
  apply negb_true_iff in Hne, Hs. apply bool_decide_eq_false in Hne.
  rewrite split_sep_app, filter_app, (split_sep_plain name Hs).
  by rewrite filter_cons_True.
Qed.

Lemma components_plain name :
  good_name name = true -> components name = [name].
Proof.
  unfold good_name, components. intros H.
  apply andb_true_iff in H as [Hne Hs].
  apply negb_true_iff in Hne, Hs. apply bool_decide_eq_false in Hne.
  rewrite (split_sep_plain name Hs). by rewrite filter_cons_True.
Qed.

Lemma last_char_None a : last_char a = None -> a = EmptyString.
Proof.
  induction a as [|c a IH]; simpl; [done|].
  destruct a; [done|]. intros H. by specialize (IH H).
Qed.

Lemma last_char_Some a c :
  last_char a = Some c -> exists a', a = a' +:+ String c EmptyString.
Proof.
  induction a as [|c0 a IH]; simpl; [done|].
  destruct a as [|c1 a].
  - intros [= ->]. by exists EmptyString.
  - intros H. destruct (IH H) as [a' Ha']. exists (String c0 a').
    by rewrite Ha'.
Qed.

Lemma append_cons x a b : String x a +:+ b = String x (a +:+ b).
Proof. reflexivity. Qed.

Lemma append_assoc a b c : (a +:+ b) +:+ c = a +:+ (b +:+ c).
Proof.
  induction a as [|x a IH]; [done|]. by rewrite !append_cons, IH.
Qed.

Lemma good_name_no_leading_slash name :
  good_name name = true -> starts_with slash name = false.
Proof.
  unfold good_name. intros H. apply andb_true_iff in H as [_ Hs].
  apply negb_true_iff in Hs. destruct name as [|c name]; [done|].
  simpl in *. by apply orb_false_elim in Hs as [-> _].
Qed.

(** Joining a path and a name adds one component. *)
Lemma components_join p name :
  good_name name = true ->
  components (path_join p name) = components p ++ [name].
Proof.
  intros Hname. unfold path_join.
  rewrite (good_name_no_leading_slash name Hname).
  destruct (last_char p) as [c|] eqn:Hlast.
  - destruct (decide (c = slash)) as [->|Hc].
    + destruct (last_char_Some _ _ Hlast) as [p' ->].
      rewrite append_assoc.
      change (String slash EmptyString +:+ name) with (String slash name).
      rewrite (components_snoc p' name Hname). f_equal.
      unfold components. rewrite split_sep_app, filter_app. simpl.
      rewrite filter_cons_False by (by intros ?).
      by rewrite filter_nil, app_nil_r.
    + change (p +:+ "/" +:+ name) with (p +:+ String slash name).
      by apply components_snoc.
  - rewrite (last_char_None p Hlast). by apply components_plain.
Qed.

Lemma path_join_nonempty p name :
  good_name name = true -> path_join p name <> EmptyString.
Proof.
  intros Hname. unfold path_join.
  rewrite (good_name_no_leading_slash name Hname).
  assert (name <> EmptyString) as Hne.
  { unfold good_name in Hname. apply andb_true_iff in Hname as [H _].
    apply negb_true_iff in H. by apply bool_decide_eq_false in H. }
  destruct (last_char p) as [c|] eqn:Hlast; [|done].
  destruct p as [|c0 p]; [done|]. by destruct (decide (c = slash)).
Qed.

Lemma lookup_path_app cs cs' n :
  lookup_path (cs ++ cs') n
  = match lookup_path cs n with
    | Some n' => lookup_path cs' n'
    | None => None
    end.
Proof.
  revert n. induction cs as [|c cs IH]; intros n; simpl; [done|].
  destruct n as [| |d]; try done. destruct (dir_find c d); [apply IH|done].
Qed.

(** ** Well-formed trees *)

Lemma dir_names_entries name d :
  name ∈ dir_names d <-> exists e, (name, e) ∈ dir_entries d.
Proof.
  unfold dir_names. rewrite list_elem_of_fmap. split.
  - intros ([name' e] & -> & H). by exists e.
  - intros [e H]. by exists (name, e).
Qed.

Lemma wf_dir_entry d name e :
  wf_dir d = true -> (name, e) ∈ dir_entries d ->
  good_name name = true /\ wf_node e = true /\ dir_find name d = Some e.
Proof.
  induction d as [|name0 n0 rest IH]; simpl.
  - intros _ H. by apply elem_of_nil in H.
  - intros Hwf H. apply andb_true_iff in Hwf as [Hwf Hrest].
    apply andb_true_iff in Hwf as [Hwf Hn0].
    apply andb_true_iff in Hwf as [Hgood Hfresh].
    apply negb_true_iff, bool_decide_eq_false in Hfresh.
    apply elem_of_cons in H as [[= -> ->]|H].
    + by destruct (decide (name0 = name0)).
    + destruct (IH Hrest H) as (? & ? & ?).
      destruct (decide (name0 = name)) as [->|]; [|done].
      exfalso. apply Hfresh. apply dir_names_entries. by exists e.
Qed.

Lemma wf_lookup_path cs root n :
  wf_node root = true -> lookup_path cs root = Some n -> wf_node n = true.
Proof.
  revert root. induction cs as [|c cs IH]; intros root Hwf; simpl.
  - by intros [= <-].
  - destruct root as [| |d]; try done.
    destruct (dir_find c d) as [n'|] eqn:Hfind; [|done].
    apply IH. clear IH. simpl in Hwf.
    induction d as [|name0 n0 rest IHd]; simpl in *; [done|].
    apply andb_true_iff in Hwf as [Hwf Hrest].
    apply andb_true_iff in Hwf as [_ Hn0].
    destruct (decide (name0 = c)); [by injection Hfind as <-|by apply IHd].
Qed.

(** In a well-formed tree, the path of an entry names the entry. *)
Lemma resolve_join root p d name e :
  wf_node root = true ->
  resolve p root = Some (Dir d) -> (name, e) ∈ dir_entries d ->
  resolve (path_join p name) root = Some e.
Proof.
  unfold resolve. intros Hwf Hp He.
  destruct (decide (p = EmptyString)); [done|].
  pose proof (wf_lookup_path _ _ _ Hwf Hp) as Hd. simpl in Hd.
  destruct (wf_dir_entry d name e Hd He) as (Hgood & _ & Hfind).
  destruct (decide (path_join p name = EmptyString)) as [Hempty|_].
  { by apply path_join_nonempty in Hempty. }
  rewrite (components_join p name Hgood), lookup_path_app, Hp. simpl.
  by rewrite Hfind.
Qed.

Lemma below_resolve root p n q d :
  wf_node root = true -> resolve p root = Some n -> below p n q d ->
  resolve q root = Some (Dir d).
Proof.
  intros Hwf Hp Hbelow. induction Hbelow as [|p d name n q d' He _ IH]; [done|].
  apply IH. by eapply resolve_join.
Qed.

(** ** [os.walk] visits the directories below its top, and only those *)

Lemma walk_sound :
  (forall n p x, x ∈ walk_node p n -> exists d, below p n x.1.1 d)
  /\ (forall d p x, x ∈ walk_dir p d ->
        exists name n d', (name, n) ∈ dir_entries d
                          /\ below (path_join p name) n x.1.1 d').
Proof.
  apply node_dir_ind; simpl.
  - intros p x H. by apply elem_of_nil in H.
  - intros content p x H. by apply elem_of_nil in H.
  - intros d IH p x H. apply elem_of_cons in H as [->|H].
    + exists d. apply below_here.
    + destruct (IH p x H) as (name & n & d' & He & Hb).
      exists d'. by eapply below_sub.
  - intros p x H. by apply elem_of_nil in H.
  - intros name n IHn rest IHrest p x H. apply elem_of_app in H as [H|H].
    + destruct (IHn _ _ H) as [d' Hb]. exists name, n, d'. split; [left|done].
    + destruct (IHrest _ _ H) as (name' & n' & d' & He & Hb).
      exists name', n', d'. split; [by right|done].
Qed.

Lemma walk_dir_entry d p name n x :
  (name, n) ∈ dir_entries d -> x ∈ walk_node (path_join p name) n ->
  x ∈ walk_dir p d.
Proof.
  induction d as [|name0 n0 rest IH]; simpl.
  - intros H. by apply elem_of_nil in H.
  - intros H Hx. apply elem_of_app.
    apply elem_of_cons in H as [[= -> ->]|H]; [by left|right; by apply IH].
Qed.

Lemma walk_complete p n q d :
  below p n q d -> exists x, x ∈ walk_node p n /\ x.1.1 = q.
Proof.
  induction 1 as [p d|p d name n q d' He _ (x & Hx & Hq)]; simpl.
  - eexists. split; [left|done].
  - exists x. split; [right; by eapply walk_dir_entry|done].
Qed.

(** ** [glob] of [dirpath/*] *)

Lemma is_suffix_empty s : is_suffix EmptyString s = true.
Proof. induction s as [|c s IH]; simpl; [done|]. by rewrite IH. Qed.

Lemma fnmatch_any name :
  fnmatch_star EmptyString EmptyString name = negb (starts_with dot name).
Proof.
  unfold fnmatch_star. rewrite is_suffix_empty.
  by destruct name.
Qed.

Lemma glob_star_dir root q d y :
  resolve q root = Some (Dir d) ->
  y ∈ glob_star q EmptyString EmptyString root
  <-> exists name e, (name, e) ∈ dir_entries d
                     /\ starts_with dot name = false /\ y = path_join q name.
Proof.
  intros Hq. unfold glob_star. rewrite Hq, list_elem_of_fmap. split.
  - intros (name & -> & H). apply list_elem_of_filter in H as [Hvis Hin].
    rewrite fnmatch_any in Hvis. apply negb_true_iff in Hvis.
    apply dir_names_entries in Hin as [e He]. by exists name, e.
  - intros (name & e & He & Hvis & ->). exists name. split; [done|].
    apply list_elem_of_filter. split.
    + rewrite fnmatch_any. by apply negb_true_iff.
    + apply dir_names_entries. by exists e.
Qed.

(** ** [get_files] *)

Lemma get_files_loop_map root paths sources :
  get_files_loop root paths sources
  = sources ++ map (fun path => files_below path root) paths.
Proof.
  revert sources. induction paths as [|path rest IH]; intros sources; simpl.
  - by rewrite app_nil_r.
  - by rewrite IH, <- app_assoc.
Qed.

Lemma get_files_map paths root :
  get_files paths root = map (fun path => files_below path root) paths.
Proof. unfold get_files. by rewrite get_files_loop_map. Qed.

Lemma collected_get_files paths root y :
  collected (get_files paths root) y
  <-> exists top, top ∈ paths /\ y ∈ files_below top root.
Proof.
  unfold collected. rewrite get_files_map.
  induction paths as [|path rest IH]; simpl.
  - split; [intros H; by apply elem_of_nil in H|].
    intros (top & H & _). by apply elem_of_nil in H.
  - rewrite elem_of_app, IH. split.
    + intros [H|(top & Htop & H)]; [exists path|exists top];
        (split; [|done]); [left|by right].
    + intros (top & Htop & H). apply elem_of_cons in Htop as [->|Htop];
        [by left|right; by exists top].
Qed.

(** What the comprehension collects for one include directory. *)
Lemma files_below_spec root top y :
  wf_node root = true ->
  y ∈ files_below top root <-> visible_entry_below root top y.
Proof.
  intros Hwf. unfold files_below, visible_entry_below, os_walk.
  rewrite list_elem_of_bind. split.
  - intros (x & Hy & Hx).
    destruct (resolve top root) as [n|] eqn:Htop; [|by apply elem_of_nil in Hx].
    destruct (proj1 walk_sound n top x Hx) as [d Hb].
    pose proof (below_resolve root top n _ d Hwf Htop Hb) as Hq.
    apply list_elem_of_filter in Hy as [Hfile Hy].
    apply (glob_star_dir root _ d y Hq) in Hy as (name & e & He & Hvis & ->).
    exists n, x.1.1, d, name, e. repeat split; try done.
    unfold isdir in Hfile. by rewrite (resolve_join root _ d name e Hwf Hq He) in Hfile.
  - intros (n & q & d & name & e & Htop & Hb & He & Hfile & Hvis & ->).
    rewrite Htop. destruct (walk_complete top n q d Hb) as (x & Hx & <-).
    exists x. split; [|done].
    pose proof (below_resolve root top n _ d Hwf Htop Hb) as Hq.
    apply list_elem_of_filter. split.
    + unfold isdir. by rewrite (resolve_join root _ d name e Hwf Hq He).
    + apply (glob_star_dir root _ d _ Hq). by exists name, e.
Qed.

(** C10 fails on the code: [lib/eigen/.hgeol] is a file in the include
    directory [lib/eigen], and no dependency list of the declared extension
    holds it.  What [get_files] returns is one list per include directory. *)
Theorem get_files_omits_dot_file :
  let sources := get_files get_include_paths (fs fresh_checkout) in
  "lib/eigen" ∈ get_include_paths
  /\ resolve "lib/eigen/.hgeol" (fs fresh_checkout) = Some File
  /\ entry_below (fs fresh_checkout) "lib/eigen" "lib/eigen/.hgeol"
  /\ sources
     = [ [];
         ["lib/eigen/Eigen/Core"; "lib/eigen/unsupported/README.txt"];
         ["lib/eigen/unsupported/README.txt"];
         [];
         [] ]
  /\ ~ collected sources "lib/eigen/.hgeol"
  /\ exists ext w',
       declare_extension fresh_checkout = (Ret ext, w')
       /\ depends ext = sources.
Proof.
  cbv zeta. split; [by_compute|]. split; [reflexivity|]. split.
  { exists (Dir eigen_tree), "lib/eigen", eigen_tree, ".hgeol", File.
    split; [reflexivity|]. split; [apply below_here|].
    split; [left|]. split; reflexivity. }
  split; [reflexivity|]. split; [unfold collected; by_compute|].
  eexists _, _. split; reflexivity.
Qed.

(** * Further properties *)

(** ** Probing *)





Lemma select_std_sound c flags f :
  select_std c flags = Ret f ->
  exists pre post,
    flags = pre ++ f :: post
    /\ (forall g, g ∈ pre -> rejects c g) /\ accepts c f.
Proof.
  induction flags as [|g flags IH]; simpl; [done|].
  unfold probe at 1. destruct (compile_outcome c g) as [e|] eqn:Hout.
  - destruct e; try done. intros H.
    destruct (IH H) as (pre & post & -> & Hrej & Hacc).
    exists (g :: pre), post. repeat split; [|done].
    intros h Hh. apply elem_of_cons in Hh as [->|Hh]; [|by apply Hrej].
    by apply rejects_iff.
  - intros [= <-]. exists [], flags. repeat split; [|by apply accepts_iff].
    intros h Hh. by apply elem_of_nil in Hh.
Qed.

(** X2: a flag that [cpp_flag] returns is one of the candidates, the
    compiler accepts it, and it rejects every candidate listed before it. *)
Theorem cpp_flag_result_is_first_accepted c w f :
  (cpp_flag c w).1 = Ret f ->
  exists pre post,
    std_flags = pre ++ f :: post
    /\ (forall g, g ∈ pre -> rejects c g) /\ accepts c f.
Proof. rewrite cpp_flag_result. apply select_std_sound. Qed.

Lemma cpp_flag_result_is_first_accepted_witness :
  exists pre post,
    std_flags = pre ++ "-std=c++11" :: post
    /\ (forall g, g ∈ pre -> rejects old_gcc g) /\ accepts old_gcc "-std=c++11".
Proof.
  apply (cpp_flag_result_is_first_accepted old_gcc empty_world). reflexivity.
Defined.




(** ** The removal step, counted *)

Lemma occurrences_cons x y l :
  occurrences x (y :: l)
  = (if decide (y = x) then 1 else 0) + occurrences x l.
Proof.
  unfold occurrences. destruct (decide (y = x)) as [Heq|Hne].
  - by rewrite filter_cons_True.
  - by rewrite filter_cons_False.
Qed.

Lemma list_remove_occurrences x l l' :
  list_remove x l = Some l' ->
  occurrences x l = S (occurrences x l')
  /\ (forall y, y <> x -> occurrences y l' = occurrences y l)
  /\ l' `sublist_of` l.
Proof.
  revert l'. induction l as [|z l IH]; intros l'; simpl; [done|].
  destruct (decide (x = z)) as [<-|Hne].
  - intros [= <-]. rewrite occurrences_cons.
    destruct (decide (x = x)); [|done]. repeat split.
    + intros y Hy. rewrite occurrences_cons. by destruct (decide (x = y)).
    + by apply sublist_cons.
  - destruct (list_remove x l) as [l''|]; [|done]. intros [= <-].
    destruct (IH l'' eq_refl) as (Hx & Hy & Hsub). repeat split.
    + rewrite !occurrences_cons. destruct (decide (z = x)); [done|]. simpl. lia.
    + intros y Hyx. rewrite !occurrences_cons. by rewrite Hy.
    + by apply sublist_skip.
Qed.

(** X4: on a compiler whose [compiler_so] is a list, the removal step takes
    out one occurrence of [-Wstrict-prototypes] and no more: a flag that is
    listed twice is still listed once afterwards; every other flag keeps its
    number of occurrences and the order is kept. *)
Theorem remove_strict_prototypes_removes_one c l :
  compiler_so c = SoList l ->
  exists c' l',
    remove_strict_prototypes c = Ret c' /\ compiler_so c' = SoList l'
    /\ occurrences "-Wstrict-prototypes" l'
       = pred (occurrences "-Wstrict-prototypes" l)
    /\ (forall y, y <> "-Wstrict-prototypes" ->
                  occurrences y l' = occurrences y l)
    /\ l' `sublist_of` l.
Proof.
  intros Hso. unfold remove_strict_prototypes, compiler_so_remove. rewrite Hso.
  destruct (list_remove "-Wstrict-prototypes" l) as [l'|] eqn:Hrm.
  - destruct (list_remove_occurrences _ _ _ Hrm) as (Hx & Hy & Hsub).
    eexists _, l'. split; [reflexivity|]. simpl. repeat split; try done.
    rewrite Hx. done.
  - exists c, l. repeat split; try done.
    assert (Hnone : forall l0, list_remove "-Wstrict-prototypes" l0 = None ->
                               occurrences "-Wstrict-prototypes" l0 = 0).
    { clear. induction l0 as [|z l0 IH]; simpl; [done|].
      destruct (decide ("-Wstrict-prototypes" = z)) as [|Hne]; [done|].
      destruct (list_remove _ l0); [done|]. intros _.
      rewrite occurrences_cons. destruct (decide (z = _)); [done|].
      by rewrite IH. }
    by rewrite (Hnone l Hrm).
Qed.

Lemma remove_strict_prototypes_removes_one_witness :
  exists c' l',
    remove_strict_prototypes mingw = Ret c' /\ compiler_so c' = SoList l'
    /\ occurrences "-Wstrict-prototypes" l'
       = pred (occurrences "-Wstrict-prototypes"
                 ["-Wstrict-prototypes"; "-O2"; "-Wstrict-prototypes"])
    /\ (forall y, y <> "-Wstrict-prototypes" ->
                  occurrences y l'
                  = occurrences y
                      ["-Wstrict-prototypes"; "-O2"; "-Wstrict-prototypes"])
    /\ l' `sublist_of` ["-Wstrict-prototypes"; "-O2"; "-Wstrict-prototypes"].
Proof. apply (remove_strict_prototypes_removes_one mingw). reflexivity. Defined.

(** ** More on [build_extensions] *)

(** X5: for a compiler that is not of type [unix], the part of
    [build_extensions] that is the script's own, up to the call of the
    generic driver, does not raise, and it gets there without a single
    probe: no temporary file, no compile. *)
Theorem build_extensions_without_probe sys cls self w :
  compiler_type (compiler self) <> "unix" ->
  exists self' w',
    build_extensions sys cls self w = (Ret self', w') /\ log w' = log w.
Proof.
  intros Hct. unfold build_extensions, dict_get. cbv zeta.
  destruct (decide (compiler_type (compiler self) = "unix")); [done|].
  unfold bind, lift, list_append, list_extend, modify, new_list, ret.
  rewrite remove_strict_prototypes_ret.
  destruct (c_opts cls !! compiler_type (compiler self)),
    (l_opts cls !! compiler_type (compiler self)),
    (decide (compiler_type (compiler self) = "msvc")),
    (tuple_ge (version_info sys) [3; 9]%Z); simpl; eauto.
Qed.

Lemma build_extensions_without_probe_witness :
  exists self' w',
    build_extensions python38 loaded_class (build_with msvc_uninstalled)
      loaded_world = (Ret self', w')
    /\ log w' = log loaded_world.
Proof.
  apply (build_extensions_without_probe python38 loaded_class
           (build_with msvc_uninstalled) loaded_world).
  by_compute.
Defined.

(** X6: with a [unix] compiler that rejects every candidate standard flag,
    [build_extensions] leaves with the [RuntimeError] of [cpp_flag], and by
    then the version macro is already in the list of the class-level table:
    the failed run has changed the shared list. *)
Theorem build_extensions_unsupported_keeps_macro sys cls self w :
  tables_ok cls w ->
  compiler_type (compiler self) = "unix" ->
  (forall g, g ∈ std_flags -> rejects (compiler self) g) ->
  exists w',
    build_extensions sys cls self w = (Raise unsupported_compiler, w')
    /\ table_opts (c_opts cls) "unix" w'
       = table_opts (c_opts cls) "unix" w
         ++ ["-DVERSION_INFO=" +:+ dquote +:+ distribution_version self
               +:+ dquote].
Proof.
  intros Hok Hct Hrej.
  pose proof Hok as (cm & cu & lm & lu & Hc & Hl & _ & _ & Hcu & _).
  unfold build_extensions, dict_get. cbv zeta.
  rewrite Hct, Hc, Hl, !lookup_tables_unix.
  destruct (decide ("unix" = "unix")); [|done].
  unfold list_append, list_extend, modify, bind, ret.
  unfold cpp_flag. rewrite (cpp_flag_loop_none _ _ _ Hrej).
  eexists. split; [reflexivity|].
  unfold table_opts, deref. rewrite lookup_tables_unix, heap_probes.
  cbn [heap set_heap]. rewrite list_lookup_alter_eq, format_plain.
  by destruct (lookup_lt_is_Some_2 _ _ Hcu) as [l0 ->].
Qed.

Lemma build_extensions_unsupported_keeps_macro_witness :
  exists w',
    build_extensions python39 loaded_class (build_with ancient_cc) loaded_world
    = (Raise unsupported_compiler, w')
    /\ table_opts (c_opts loaded_class) "unix" w'
       = table_opts (c_opts loaded_class) "unix" loaded_world
         ++ ["-DVERSION_INFO=" +:+ dquote +:+ "0.5.5" +:+ dquote].
Proof.
  apply (build_extensions_unsupported_keeps_macro python39 loaded_class
           (build_with ancient_cc) loaded_world tables_ok_loaded eq_refl).
  intros g _ w. reflexivity.
Defined.

Lemma bind_inv {A B} (m : M A) (k : A -> M B) w b w' :
  bind m k w = (Ret b, w') ->
  exists a w1, m w = (Ret a, w1) /\ k a w1 = (Ret b, w').
Proof.
  unfold bind. destruct (m w) as [[a|e] w1]; [|done]. intros H. by exists a, w1.
Qed.

(** The list that a run hands to the extensions is the one that the
    class-level table holds, when the table has the compiler type. *)
Lemma build_extensions_opts sys cls self w self' w' r ext :
  build_extensions sys cls self w = (Ret self', w') ->
  c_opts cls !! compiler_type (compiler self) = Some r ->
  ext ∈ extensions self' -> extra_compile_args ext = r.
Proof.
  intros Hrun Hr Hext. unfold build_extensions in Hrun. cbv zeta in Hrun.
  apply bind_inv in Hrun as (opts & w1 & Hopts & Hrun).
  unfold dict_get in Hopts. rewrite Hr in Hopts. injection Hopts as <- <-.
  apply bind_inv in Hrun as (link_opts & w2 & _ & Hrun).
  apply bind_inv in Hrun as (u & w3 & _ & Hrun).
  apply bind_inv in Hrun as (c' & w4 & _ & Hrun).
  injection Hrun as <- _. simpl in Hext.
  by apply list_elem_of_fmap in Hext as (ext0 & -> & _).
Qed.

(** X7: the first run of a process hands every extension, as link
    arguments, the macOS options when the compiler is [unix] on macOS and
    nothing otherwise, and compile arguments that start with [/EHsc] for
    [msvc], with the macOS options for [unix] on macOS, and that are empty
    for a compiler type the tables do not list. *)
Theorem first_build_arguments sys self w0 self' w' ext :
  first_build sys self w0 = (Ret self', w') ->
  ext ∈ extensions self' ->
  let ct := compiler_type (compiler self) in
  let mac := if decide (platform sys = "darwin") then darwin_opts else [] in
  link_args w' ext = (if decide (ct = "unix") then mac else [])
  /\ exists added,
       compile_args w' ext
       = (if decide (ct = "msvc") then ["/EHsc"]
          else if decide (ct = "unix") then mac else []) ++ added
       /\ (ct <> "unix" -> ct <> "msvc" -> added = []).
Proof.
  intros Hrun Hext ct mac. unfold first_build in Hrun.
  destruct (BuildExt_class_ok sys w0)
    as (cls & w & Hcls & Hok & Hcm & Hlm & Hcu & Hlu).
  unfold bind in Hrun. rewrite Hcls in Hrun.
  destruct (build_extensions_ret _ _ _ _ _ _ Hok Hrun)
    as (added & opts & link_opts & Hadd & -> & Hopts & Hlink & _).
  destruct (finished_args _ _ _ w' ext Hext) as [-> ->].
  rewrite Hopts, Hlink. fold ct. fold mac in Hcu, Hlu.
  pose proof Hok as (cm & cu & lm & lu & Hc & Hl & _).
  assert (Hother : ct <> "unix" -> ct <> "msvc" ->
            table_opts (c_opts cls) ct w = [] /\ table_opts (l_opts cls) ct w = []).
  { intros Hu Hm. unfold table_opts.
    by rewrite Hc, Hl, !lookup_tables_other. }
  split.
  - destruct (decide (ct = "unix")) as [->|Hu]; [done|].
    destruct (decide (ct = "msvc")) as [->|Hm]; [done|].
    by apply Hother.
  - exists added. split.
    + destruct (decide (ct = "msvc")) as [->|Hm]; [by rewrite Hcm|].
      destruct (decide (ct = "unix")) as [->|Hu]; [by rewrite Hcu|].
      by rewrite (proj1 (Hother Hu Hm)).
    + intros Hu Hm. unfold appended_opts in Hadd. fold ct in Hadd.
      destruct (decide (ct = "unix")); [done|].
      destruct (decide (ct = "msvc")); [done|]. by injection Hadd as <-.
Qed.

Lemma first_build_arguments_witness :
  link_args (first_build macos (build_with gcc) empty_world).2
    (set_args 1 3 sample_extension) = darwin_opts
  /\ exists added,
       compile_args (first_build macos (build_with gcc) empty_world).2
         (set_args 1 3 sample_extension)
       = darwin_opts ++ added
       /\ (compiler_type gcc <> "unix" -> compiler_type gcc <> "msvc" ->
           added = []).
Proof.
  apply (first_build_arguments macos (build_with gcc) empty_world
           (finished (build_with gcc) 1 3)
           (first_build macos (build_with gcc) empty_world).2
           (set_args 1 3 sample_extension)).
  - reflexivity.
  - left.
Defined.

(** X8: the extensions do not get a copy of the flags but the list of the
    class-level table itself: after a second run for a [unix] or [msvc]
    compiler, the extensions of the first run hold the same list as those of
    the second, and so have got the flags that the second run appended. *)
Theorem extensions_share_table_list sys cls self w self1 w1 self2 w2 ext1 ext2 :
  tables_ok cls w ->
  compiler_type (compiler self) = "unix"
  \/ compiler_type (compiler self) = "msvc" ->
  build_extensions sys cls self w = (Ret self1, w1) ->
  build_extensions sys cls self1 w1 = (Ret self2, w2) ->
  ext1 ∈ extensions self1 -> ext2 ∈ extensions self2 ->
  extra_compile_args ext1 = extra_compile_args ext2
  /\ compile_args w2 ext1 = compile_args w2 ext2
  /\ length (compile_args w1 ext1) < length (compile_args w2 ext1).
Proof.
  intros Hok Hct Hrun1 Hrun2 Hext1 Hext2.
  pose proof Hok as (cm & cu & lm & lu & Hc & Hl & _).
  assert (exists r, c_opts cls !! compiler_type (compiler self) = Some r)
    as [r Hr].
  { rewrite Hc. destruct Hct as [-> | ->];
      [rewrite lookup_tables_unix|rewrite lookup_tables_msvc]; eauto. }
  pose proof (build_extensions_opts _ _ _ _ _ _ r ext1 Hrun1 Hr Hext1) as H1.
  destruct (build_extensions_ret _ _ _ _ _ _ Hok Hrun1)
    as (added & opts & link_opts & Hadd & -> & Hopts & _ & Htab & _ & Hok1).
  assert (Hr2 : c_opts cls
                !! compiler_type (compiler (finished self opts link_opts))
                = Some r).
  { cbn [finished compiler]. by rewrite cleaned_type. }
  pose proof (build_extensions_opts _ _ _ _ _ _ r ext2 Hrun2 Hr2 Hext2) as H2.
  destruct (build_extensions_ret _ _ _ _ _ _ Hok1 Hrun2)
    as (added2 & opts2 & link2 & Hadd2 & -> & Hopts2 & _).
  rewrite appended_opts_finished, Hadd in Hadd2. injection Hadd2 as <-.
  destruct (finished_args _ _ _ w1 ext1 Hext1) as [Ha1 _].
  destruct (finished_args _ _ _ w2 ext2 Hext2) as [Ha2 _].
  assert (Hsame : compile_args w2 ext1 = compile_args w2 ext2)
    by (unfold compile_args; by rewrite H1, H2).
  split; [by rewrite H1, H2|]. split; [done|].
  rewrite Hsame, Ha1, Ha2, Hopts, Hopts2.
  cbn [finished compiler]. rewrite cleaned_type.
  specialize (Htab (compiler_type (compiler self))).
  destruct (decide _); [|done]. rewrite Htab, !length_app.
  assert (added <> []) as Hne.
  { unfold appended_opts in Hadd.
    destruct Hct as [Hct|Hct]; rewrite Hct in Hadd.
    - destruct (decide ("unix" = "unix")); [|done].
      destruct (select_std _ _); [|done]. destruct (probe _ _); [|done].
      by injection Hadd as <-.
    - destruct (decide ("msvc" = "unix")); [done|].
      destruct (decide ("msvc" = "msvc")); [|done]. by injection Hadd as <-. }
  destruct added; [done|]. simpl. lia.
Qed.

Lemma extensions_share_table_list_witness :
  extra_compile_args (set_args 1 3 sample_extension)
  = extra_compile_args (set_args 1 3 (set_args 1 3 sample_extension))
  /\ compile_args (rerun 2 python39 loaded_class (build_with gcc) loaded_world).2
       (set_args 1 3 sample_extension)
     = compile_args
         (rerun 2 python39 loaded_class (build_with gcc) loaded_world).2
         (set_args 1 3 (set_args 1 3 sample_extension))
  /\ length (compile_args
               (rerun 1 python39 loaded_class (build_with gcc) loaded_world).2
               (set_args 1 3 sample_extension))
     < length (compile_args
                 (rerun 2 python39 loaded_class (build_with gcc)
                    loaded_world).2
                 (set_args 1 3 sample_extension)).
Proof.
  apply (extensions_share_table_list python39 loaded_class (build_with gcc)
           loaded_world (finished (build_with gcc) 1 3)
           (rerun 1 python39 loaded_class (build_with gcc) loaded_world).2
           (finished (finished (build_with gcc) 1 3) 1 3)
           (rerun 2 python39 loaded_class (build_with gcc) loaded_world).2
           (set_args 1 3 sample_extension)
           (set_args 1 3 (set_args 1 3 sample_extension))
           tables_ok_loaded (or_introl eq_refl) eq_refl eq_refl).
  - left.
  - left.
Defined.

(** X9: the class body never raises, whatever the platform; it makes four
    different lists, so that the compile and the link list of [unix] are two
    objects although both get the macOS options; [/EHsc] is in the [msvc]
    compile list only, and the macOS options are in the two [unix] lists
    once each on macOS and nowhere otherwise. *)
Theorem BuildExt_class_tables sys w0 :
  exists cls w cm cu lm lu,
    BuildExt_class sys w0 = (Ret cls, w)
    /\ c_opts cls !! "msvc" = Some cm /\ c_opts cls !! "unix" = Some cu
    /\ l_opts cls !! "msvc" = Some lm /\ l_opts cls !! "unix" = Some lu
    /\ NoDup [cm; cu; lm; lu]
    /\ deref cm w = ["/EHsc"] /\ deref lm w = []
    /\ deref cu w = (if decide (platform sys = "darwin") then darwin_opts else [])
    /\ deref lu w = (if decide (platform sys = "darwin") then darwin_opts else []).
Proof.
  destruct (BuildExt_class_ok sys w0)
    as (cls & w & Hcls & Hok & Hcm & Hlm & Hcu & Hlu).
  destruct Hok as (cm & cu & lm & lu & Hc & Hl & Hnd & _).
  exists cls, w, cm, cu, lm, lu. unfold table_opts in Hcm, Hlm, Hcu, Hlu.
  rewrite Hc, Hl in *.
  rewrite ?lookup_tables_msvc, ?lookup_tables_unix in *.
  by repeat split.
Qed.

(** ** More on [extract_boost] *)

(** X10: [extract_boost] fails in two ways only.  Before an archive is
    open (no file matches the pattern, or the first match is nothing that
    [tarfile.open] accepts) it leaves the world exactly as it was.  After
    that it fails with what [extractall] raised: the tree is as [extractall]
    left it, the handle is open and no close has been logged. *)
Theorem extract_boost_failure_states unpack w e w' :
  extract_boost unpack w = (Raise e, w') ->
  (w' = w
   /\ (glob_star "lib" "boost" ".tar.gz" (fs w) = [] /\ e = IndexError
       \/ exists a others,
            glob_star "lib" "boost" ".tar.gz" (fs w) = a :: others
            /\ forall content, resolve a (fs w) <> Some (Tarball content)))
  \/ (exists a content,
        resolve a (fs w) = Some (Tarball content)
        /\ unpack content "lib/boost" (fs w) = (fs w', Some e)
        /\ handles w' = a :: handles w
        /\ log w' = log w ++ [EvTarOpen a; EvExtract a "lib/boost"]).
Proof.
  intros Hrun.
  destruct (extract_boost_cases unpack w) as [[_ Hsame]|[Hdir _]];
    [by rewrite Hsame in Hrun|].
  rewrite (extract_boost_absent unpack w Hdir) in Hrun.
  destruct (glob_star "lib" "boost" ".tar.gz" (fs w)) as [|a others].
  { injection Hrun as <- <-. left. split; [done|]. by left. }
  destruct (resolve a (fs w)) as [[|content|d]|] eqn:Hres.
  - injection Hrun as <- <-. left. split; [done|]. right.
    exists a, others. split; [done|]. intros content' H. by rewrite Hres in H.
  - cbv zeta in Hrun.
    destruct (unpack content "lib/boost" (fs w)) as [root' [e0|]] eqn:Hun;
      [|done].
    injection Hrun as <- <-. right. exists a, content.
    split; [done|]. split; [done|]. split; [done|].
    simpl. by rewrite <- app_assoc.
  - injection Hrun as <- <-. left. split; [done|]. right.
    exists a, others. split; [done|]. intros content' H. by rewrite Hres in H.
  - injection Hrun as <- <-. left. split; [done|]. right.
    exists a, others. split; [done|]. intros content' H. by rewrite Hres in H.
Qed.

Lemma extract_boost_failure_states_witness :
  let w' := (extract_boost sample_unpack damaged_checkout).2 in
  (w' = damaged_checkout
   /\ (glob_star "lib" "boost" ".tar.gz" (fs damaged_checkout) = []
       /\ ReadError = IndexError
       \/ exists a others,
            glob_star "lib" "boost" ".tar.gz" (fs damaged_checkout)
            = a :: others
            /\ forall content,
                 resolve a (fs damaged_checkout) <> Some (Tarball content)))
  \/ (exists a content,
        resolve a (fs damaged_checkout) = Some (Tarball content)
        /\ sample_unpack content "lib/boost" (fs damaged_checkout)
           = (fs w', Some ReadError)
        /\ handles w' = a :: handles damaged_checkout
        /\ log w'
           = log damaged_checkout ++ [EvTarOpen a; EvExtract a "lib/boost"]).
Proof.
  cbv zeta.
  apply (extract_boost_failure_states sample_unpack damaged_checkout ReadError
           (extract_boost sample_unpack damaged_checkout).2).
  reflexivity.
Defined.

(** X11: when several files match the pattern, [extract_boost] works on
    the first match, in listing order, and on no other: whatever the call
    logs is about that archive. *)
Theorem extract_boost_first_match_only unpack w a others :
  isdir "lib/boost" (fs w) = false ->
  glob_star "lib" "boost" ".tar.gz" (fs w) = a :: others ->
  exists evs,
    log (extract_boost unpack w).2 = log w ++ evs
    /\ forall ev, ev ∈ evs ->
         ev = EvTarOpen a \/ ev = EvExtract a "lib/boost" \/ ev = EvTarClose a.
Proof.
  intros Hdir Hglob. rewrite (extract_boost_absent unpack w Hdir), Hglob.
  assert (Hnone : exists evs,
            log w = log w ++ evs
            /\ forall ev, ev ∈ evs ->
                 ev = EvTarOpen a \/ ev = EvExtract a "lib/boost"
                 \/ ev = EvTarClose a).
  { exists []. split; [by rewrite app_nil_r|].
    intros ev Hev. by apply elem_of_nil in Hev. }
  destruct (resolve a (fs w)) as [[|content|d]|]; try exact Hnone.
  cbv zeta. destruct (unpack content "lib/boost" (fs w)) as [root' [e|]].
  - exists [EvTarOpen a; EvExtract a "lib/boost"].
    split; [simpl; by rewrite <- app_assoc|]. intros ev Hev.
    apply elem_of_cons in Hev as [->|Hev]; [by left|].
    apply list_elem_of_singleton in Hev as ->. right. by left.
  - exists [EvTarOpen a; EvExtract a "lib/boost"; EvTarClose a].
    split; [simpl; by rewrite <- !app_assoc|]. intros ev Hev.
    apply elem_of_cons in Hev as [->|Hev]; [by left|].
    apply elem_of_cons in Hev as [->|Hev]; [right; by left|].
    apply list_elem_of_singleton in Hev as ->. right. by right.
Qed.

Lemma extract_boost_first_match_only_witness :
  exists evs,
    log (extract_boost sample_unpack two_archives).2 = log two_archives ++ evs
    /\ forall ev, ev ∈ evs ->
         ev = EvTarOpen "lib/boost_1_71_0.tar.gz"
         \/ ev = EvExtract "lib/boost_1_71_0.tar.gz" "lib/boost"
         \/ ev = EvTarClose "lib/boost_1_71_0.tar.gz".
Proof.
  apply (extract_boost_first_match_only sample_unpack two_archives
           "lib/boost_1_71_0.tar.gz" ["lib/boost_1_60_0.tar.gz"]);
    reflexivity.
Defined.

(** X12: a call that finds no [lib/boost] directory and returns has opened
    the first match, unpacked it to [lib/boost] and closed it, in this
    order: the tree is as [extractall] left it, which raised nothing, and
    the handle is closed again. *)
Theorem extract_boost_unpacks_archive unpack w w1 :
  isdir "lib/boost" (fs w) = false ->
  extract_boost unpack w = (Ret tt, w1) ->
  exists a others content,
    glob_star "lib" "boost" ".tar.gz" (fs w) = a :: others
    /\ resolve a (fs w) = Some (Tarball content)
    /\ unpack content "lib/boost" (fs w) = (fs w1, None)
    /\ handles w1 = handles w
    /\ log w1
       = log w ++ [EvTarOpen a; EvExtract a "lib/boost"; EvTarClose a].
Proof.
  intros Hdir Hrun. rewrite (extract_boost_absent unpack w Hdir) in Hrun.
  destruct (glob_star "lib" "boost" ".tar.gz" (fs w)) as [|a others] eqn:Hglob;
    [done|].
  destruct (resolve a (fs w)) as [[|content|d]|] eqn:Hres; try done.
  cbv zeta in Hrun.
  destruct (unpack content "lib/boost" (fs w)) as [root' [e|]] eqn:Hun;
    [done|].
  injection Hrun as <-. exists a, others, content.
  repeat split; try done. simpl. by rewrite <- !app_assoc.
Qed.

Lemma extract_boost_unpacks_archive_witness :
  let w1 := (extract_boost sample_unpack fresh_checkout).2 in
  exists a others content,
    glob_star "lib" "boost" ".tar.gz" (fs fresh_checkout) = a :: others
    /\ resolve a (fs fresh_checkout) = Some (Tarball content)
    /\ sample_unpack content "lib/boost" (fs fresh_checkout) = (fs w1, None)
    /\ handles w1 = handles fresh_checkout
    /\ log w1
       = log fresh_checkout
         ++ [EvTarOpen a; EvExtract a "lib/boost"; EvTarClose a].
Proof.
  cbv zeta.
  apply (extract_boost_unpacks_archive sample_unpack fresh_checkout
           (extract_boost sample_unpack fresh_checkout).2); reflexivity.
Defined.

(** ** More on [get_files] *)




(** X17: [get_files] collects no directory; on a well-formed tree every
    path it collects names an entry of the tree that is no directory. *)
Theorem get_files_collects_files_only paths root y :
  collected (get_files paths root) y ->
  isdir y root = false
  /\ (wf_node root = true ->
      exists e, resolve y root = Some e /\ is_dir e = false).
Proof.
  intros Hy. apply collected_get_files in Hy as (top & _ & Hy). split.
  - unfold files_below in Hy. apply list_elem_of_bind in Hy as (x & Hy & _).
    by apply list_elem_of_filter in Hy as [Hy _].
  - intros Hwf. apply (files_below_spec root top y Hwf) in Hy
      as (n & q & d & name & e & Htop & Hb & He & Hfile & _ & ->).
    exists e. split; [|done].
    eapply resolve_join; [done| |done]. by eapply below_resolve.
Qed.

Lemma get_files_collects_files_only_witness :
  isdir "lib/eigen/Eigen/Core" (fs fresh_checkout) = false
  /\ (wf_node (fs fresh_checkout) = true ->
      exists e, resolve "lib/eigen/Eigen/Core" (fs fresh_checkout) = Some e
                /\ is_dir e = false).
Proof.
  apply (get_files_collects_files_only get_include_paths (fs fresh_checkout)).
  unfold collected. by_compute.
Defined.
